(** * Critical-growth analysis: threshold detection, growth-law fits, selection

    A shallow embedding of the analysis primitives of
    [analyze_critical_growth.py].

    - Python [float] and numpy [float64] are IEEE 754 binary64 values: Rocq's
      primitive floats, specified by [FloatAxioms] against [SpecFloat].
    - Python [int] is unbounded: [Z].
    - A one-dimensional numpy array of floats is a [list float].
    - A raised exception is a value of [result]; numpy's warnings
      (divide by zero in [log], mean of an empty slice) are not exceptions and
      leave no trace in the model.
    - The transcendental functions [np.log10] and [np.log], the LAPACK
      driver behind [np.linalg.lstsq] and the BLAS product behind [X @ beta]
      are library code: they are parameters of the sections that call
      them. *)

From Stdlib Require Import Ascii String.
From Stdlib Require Import ZArith List Bool Lia Floats Permutation.
Import ListNotations.

Local Open Scope Z_scope.

#[local] Set Warnings "-inexact-float".

(** ** Exceptions *)

Inductive exn : Type :=
| ValueError
| IndexError
| LinAlgError.

Inductive result (A : Type) : Type :=
| Ok (a : A)
| Raise (e : exn).

Arguments Ok {A} a.
Arguments Raise {A} e.

Definition bind {A B : Type} (r : result A) (k : A -> result B) : result B :=
  match r with
  | Ok a => k a
  | Raise e => Raise e
  end.

Notation "x <- r ;; k" := (bind r (fun x => k))
  (at level 61, r at next level, right associativity).

(** ** Floating-point helpers *)

Module Float.

Definition nan : float := PrimFloat.nan.
Definition inf : float := PrimFloat.infinity.
Definition neg_inf : float := PrimFloat.neg_infinity.

(** Python's [a >= b] and [a > b] on floats. *)
Definition geb (a b : float) : bool := (b <=? a)%float.
Definition gtb (a b : float) : bool := (b <? a)%float.

(** [np.isnan]. *)
Definition isnan (a : float) : bool := PrimFloat.is_nan a.

(** Python's truth value of a float: everything but [0.0] and [-0.0]. *)
Definition truthy (a : float) : bool := negb (a =? 0)%float.

(** Conversion of a Python [int] to [float], round to nearest even.  Array
    lengths are below [2^63], where the conversion never overflows. *)
Definition of_int (n : Z) : float :=
  if n <? 0 then (- PrimFloat.of_uint63 (Uint63.of_Z (- n)))%float
  else PrimFloat.of_uint63 (Uint63.of_Z n).

End Float.

(** ** numpy array primitives *)

Definition len {A : Type} (a : list A) : Z := Z.of_nat (length a).

(** [a[i]] for [0 <= i < len a]; the default is never reached where the model
    uses it. *)
Definition at_ (a : list float) (i : nat) : float := nth i a Float.nan.

(** [np.pad(a, (pad, pad), mode="edge")]: the first and last values are
    repeated; numpy (1.17 and later) refuses to extend an empty axis in any
    mode but "constant" and "empty" and raises [ValueError]. *)
Definition np_pad_edge (a : list float) (pad : nat) : result (list float) :=
  match a with
  | [] => match pad with
          | O => Ok []
          | S _ => Raise ValueError
          end
  | first :: _ => Ok (repeat first pad ++ a ++ repeat (last a first) pad)
  end.

(** [padded[i:i+window]] for [0 <= i] and [0 <= window]. *)
Definition slice (a : list float) (i : nat) (window : nat) : list float :=
  firstn window (skipn i a).

(** ** Reductions

    [np.add.reduce] over a contiguous array of doubles, behind [np.sum] and
    [np.mean]: the result starts at the identity [0.0], and the inner loop
    adds to it numpy's [pairwise_sum] of the elements. *)

(** [r[j] += a[i + j]] for the eight partial sums. *)
Definition add_lanes (r block : list float) : list float :=
  map (fun p => (fst p + snd p)%float) (combine r block).

(** The unrolled loop over [blocks] further blocks of 8 elements: the partial
    sums and the elements that are left. *)
Fixpoint sum_lanes (blocks : nat) (r a : list float) : list float * list float :=
  match blocks with
  | O => (r, a)
  | S blocks' => sum_lanes blocks' (add_lanes r (firstn 8 a)) (skipn 8 a)
  end.

(** The branch of [pairwise_sum] for [8 <= n <= 128]: eight interleaved
    partial sums, added up as a balanced tree, then the last [n % 8] elements
    one by one. *)
Definition sum_unrolled (a : list float) : float :=
  let '(r, rest) :=
    sum_lanes (Nat.div (length a) 8 - 1) (firstn 8 a) (skipn 8 a) in
  let res := (((at_ r 0 + at_ r 1) + (at_ r 2 + at_ r 3))
              + ((at_ r 4 + at_ r 5) + (at_ r 6 + at_ r 7)))%float in
  fold_left PrimFloat.add rest res.

(** [pairwise_sum]: fewer than 8 elements are added from left to right; more
    than 128 are split at [n2 = n / 2 - (n / 2) % 8] and the sums of the two
    parts added.  The recursion is on [fuel]; the length of the array is
    more than it uses. *)
Fixpoint pairwise_sum (fuel : nat) (a : list float) : float :=
  let n := length a in
  if (n <? 8)%nat then fold_left PrimFloat.add a 0%float
  else if (n <=? 128)%nat then sum_unrolled a
  else
    match fuel with
    | O => sum_unrolled a
    | S fuel' =>
        let n2 := (Nat.div n 2 - Nat.modulo (Nat.div n 2) 8)%nat in
        (pairwise_sum fuel' (firstn n2 a) + pairwise_sum fuel' (skipn n2 a))%float
    end.

(** [np.sum]; [0.0] when empty. *)
Definition np_sum (a : list float) : float :=
  (0 + pairwise_sum (length a) a)%float.

(** [np.mean], [a.mean()]: the sum over the count; not-a-number for the empty
    array. *)
Definition np_mean (a : list float) : float :=
  (np_sum a / Float.of_int (len a))%float.

(** ** Median *)

Fixpoint insert_sorted (v : float) (l : list float) : list float :=
  match l with
  | [] => [v]
  | w :: rest => if (v <=? w)%float then v :: l else w :: insert_sorted v rest
  end.

Definition sort (l : list float) : list float :=
  fold_right insert_sorted [] l.

(** [np.median] of a one-dimensional array: not-a-number as soon as one
    element is; otherwise [np.mean] of the middle slice of the partitioned
    values, [part[index:index+1]] for an odd length and
    [part[index-1:index+1]] for an even one, with [index = n // 2].  The
    values at these positions are those of the sorted array.  The empty array
    gives the mean of an empty slice, not-a-number. *)
Definition np_median (l : list float) : float :=
  if existsb Float.isnan l then Float.nan
  else
    let part := sort l in
    let n := length part in
    let index := Nat.div n 2 in
    if Nat.odd n then np_mean (slice part index 1)
    else np_mean (slice part (index - 1) 2).

(** [np.gradient(f)] with unit spacing and [edge_order = 1]: one-sided
    differences at both ends, central differences inside; fewer than two
    elements raise [ValueError]. *)
Definition np_gradient (f : list float) : result (list float) :=
  let n := length f in
  if (n <? 2)%nat then Raise ValueError
  else Ok (map (fun i =>
                  if (i =? 0)%nat then ((at_ f 1 - at_ f 0) / 1)%float
                  else if (i =? n - 1)%nat
                       then ((at_ f (n - 1) - at_ f (n - 2)) / 1)%float
                       else ((at_ f (i + 1) - at_ f (i - 1)) / 2)%float)
               (seq 0 n)).

(** [np.divide(a, b, out=np.zeros_like(a), where=b != 0)]. *)
Definition np_divide_where_nonzero (a b : list float) : result (list float) :=
  if (length a =? length b)%nat
  then Ok (map (fun p => if negb (snd p =? 0)%float
                         then (fst p / snd p)%float else 0%float)
               (combine a b))
  else Raise ValueError.

(** [np.argmax]: the first maximum; a not-a-number is maximal and stops the
    search. *)
Fixpoint argmax_loop (l : list float) (i : Z) (mp : float) (max_ind : Z) : Z :=
  match l with
  | [] => max_ind
  | v :: rest =>
      if negb (v <=? mp)%float
      then if Float.isnan v then i else argmax_loop rest (i + 1) v i
      else argmax_loop rest (i + 1) mp max_ind
  end.

Definition np_argmax (l : list float) : result Z :=
  match l with
  | [] => Raise ValueError
  | v :: rest => Ok (if Float.isnan v then 0 else argmax_loop rest 1 v 0)
  end.

(** ** Analysis primitives *)

Definition rolling_median (a : list float) (window : Z) : result (list float) :=
  if window <=? 1 then Ok a
  else
    let pad := window / 2 in
    padded <- np_pad_edge a (Z.to_nat pad) ;;
    Ok (map (fun i => np_median (slice padded i (Z.to_nat window)))
            (seq 0 (length a))).

(** The loop of [detect_threshold] over [enumerate(above)]: [Some] is the
    early [return], [None] is falling out of the loop. *)
Fixpoint scan (above : list bool) (i count persistence : Z) : option Z :=
  match above with
  | [] => None
  | flag :: rest =>
      if flag then
        let count := count + 1 in
        if count >=? persistence then Some (i - persistence + 1)
        else scan rest (i + 1) count persistence
      else scan rest (i + 1) 0 persistence
  end.

Definition above_cutoff (s : list float) (slope_cutoff : float) : list bool :=
  map (fun v => Float.geb v slope_cutoff) s.

(** [detect_threshold] after the slope profile [s] has been computed. *)
Definition threshold_of_slopes (s : list float) (slope_cutoff : float)
    (persistence : Z) : result Z :=
  match scan (above_cutoff s slope_cutoff) 0 0 persistence with
  | Some idx => Ok idx
  | None => match s with
            | [] => Ok 0
            | _ => np_argmax s
            end
  end.

Section Analysis.

Variable np_log10 : float -> float.

Definition compute_local_log_slope (x y : list float) (smooth_window : Z)
    : result (list float) :=
  let lx := map np_log10 x in
  let ly := map np_log10 y in
  dly <- np_gradient ly ;;
  dlx <- np_gradient lx ;;
  slope <- np_divide_where_nonzero dly dlx ;;
  rolling_median slope smooth_window.

Definition detect_threshold (x y : list float) (slope_cutoff : float)
    (persistence : Z) (smooth_window : Z) : result Z :=
  s <- compute_local_log_slope x y smooth_window ;;
  threshold_of_slopes s slope_cutoff persistence.

End Analysis.

(** ** Elementwise arithmetic *)

(** [a - c] and [a ** 2]. *)
Definition np_sub_scalar (a : list float) (c : float) : list float :=
  map (fun v => (v - c)%float) a.

Definition np_square (a : list float) : list float :=
  map (fun v => (v * v)%float) a.

(** [a - b] on arrays of one length. *)
Definition np_sub (a b : list float) : list float :=
  map (fun p => (fst p - snd p)%float) (combine a b).

(** [np.std(a, ddof=1)]: the divisor is [max(n - 1, 0)]. *)
Definition np_std_ddof1 (a : list float) : float :=
  let arrmean := np_mean a in
  let x := np_square (np_sub_scalar a arrmean) in
  PrimFloat.sqrt (np_sum x / Float.of_int (Z.max (len a - 1) 0))%float.

(** [np.vstack([np.ones_like(u), u]).T]: one row [(1, u_i)] per sample. *)
Definition design (u : list float) : list (float * float) :=
  map (fun v => (1%float, v)) u.

(** ** Growth-law fits *)

Inductive model_name : Type := exp_model | pow_model.

Record FitResult : Type := mkFitResult {
  model : model_name;
  param : float;
  intercept : float;
  r2 : float;
  aic : float;
  n : Z
}.

(** The residual sum of squares of [beta] in log space; [matmul] is the
    product [X @ beta]. *)
Definition rss_of (matmul : list (float * float) -> float * float -> list float)
    (X : list (float * float)) (ly : list float) (beta : float * float) : float :=
  let yhat := matmul X beta in
  let resid := np_sub ly yhat in
  np_sum (np_square resid).

Definition tss_of (ly : list float) : float :=
  np_sum (np_square (np_sub_scalar ly (np_mean ly))).

Section Fits.

Variable np_log : float -> float.

(** [X @ beta], one value per row of [X]: the product runs in the BLAS
    library, whose kernels may fuse a multiplication and an addition into one
    rounding, so the last bits of its result are the library's. *)
Variable matmul : list (float * float) -> float * float -> list float.

(** The least-squares solver behind [np.linalg.lstsq(X, ly, rcond=None)],
    called on a design matrix and a response of one length; it may raise
    [LinAlgError] when its decomposition does not converge. *)
Variable lstsq_solve : list (float * float) -> list float -> result (float * float).

(** [np.linalg.lstsq]: the dimension check comes before the solver. *)
Definition lstsq (X : list (float * float)) (b : list float)
    : result (float * float) :=
  if (length X =? length b)%nat then lstsq_solve X b else Raise LinAlgError.

Definition fit_exponential (x y : list float) : result FitResult :=
  let ly := map np_log y in
  let X := design x in
  beta <- lstsq X ly ;;
  let rss := rss_of matmul X ly beta in
  let n := len x in
  let k := 2 in
  let aic := if n >? 2
             then (Float.of_int n * np_log (rss / Float.of_int n)
                   + Float.of_int (2 * k))%float
             else Float.inf in
  let tss := tss_of ly in
  let r2 := if Float.gtb tss 0 then (1 - rss / tss)%float else 0%float in
  Ok (mkFitResult exp_model (snd beta) (fst beta) r2 aic n).

Definition fit_powerlaw (x y : list float) : result FitResult :=
  let lx := map np_log x in
  let ly := map np_log y in
  let X := design lx in
  beta <- lstsq X ly ;;
  let rss := rss_of matmul X ly beta in
  let n := len x in
  let k := 2 in
  let aic := if n >? 2
             then (Float.of_int n * np_log (rss / Float.of_int n)
                   + Float.of_int (2 * k))%float
             else Float.inf in
  let tss := tss_of ly in
  let r2 := if Float.gtb tss 0 then (1 - rss / tss)%float else 0%float in
  Ok (mkFitResult pow_model (snd beta) (fst beta) r2 aic n).

End Fits.

(** ** Study orchestration *)

(** [best = fe if fe.aic < fp.aic else fp]. *)
Definition select_best (fe fp : FitResult) : FitResult :=
  if (aic fe <? aic fp)%float then fe else fp.

(** [a[i]] with Python's negative indices; out of range raises [IndexError]. *)
Definition py_index (a : list float) (i : Z) : result float :=
  let j := if i <? 0 then len a + i else i in
  if (0 <=? j) && (j <? len a) then Ok (at_ a (Z.to_nat j)) else Raise IndexError.

(** [a[i:]] with Python's negative and out-of-range starts. *)
Definition py_slice_from (a : list float) (i : Z) : list float :=
  let j := if i <? 0 then Z.max 0 (len a + i) else i in
  skipn (Z.to_nat j) a.

Record city_row : Type := mkCityRow {
  x_th : float;
  y_th : float;
  model_selected : model_name;
  row_param : float;
  row_r2 : float;
  aic_exp : float;
  aic_pow : float
}.

Section Study.

Variable np_log10 np_log : float -> float.
Variable matmul : list (float * float) -> float * float -> list float.
Variable lstsq_solve : list (float * float) -> list float -> result (float * float).

(** [analyze_city_method] from the series [x], [y] read for the city to the
    row it returns; reading the workbook and drawing the figure are left
    out. *)
Definition analyze_city_method (x y : list float) (slope_cutoff : float)
    (persistence smooth_window : Z) : result city_row :=
  idx_th <- detect_threshold np_log10 x y slope_cutoff persistence smooth_window ;;
  x_th <- py_index x idx_th ;;
  y_th <- py_index y idx_th ;;
  let x_fit := py_slice_from x idx_th in
  let y_fit := py_slice_from y idx_th in
  fe <- fit_exponential np_log matmul lstsq_solve x_fit y_fit ;;
  fp <- fit_powerlaw np_log matmul lstsq_solve x_fit y_fit ;;
  let best := select_best fe fp in
  Ok (mkCityRow x_th y_th (model best) (param best) (r2 best) (aic fe) (aic fp)).

End Study.

(** ** Universality check *)

Record universality_row : Type := mkUniversality {
  mean_param : float;
  std_param : float;
  cov : float
}.

(** The three statistics of [main] on the [param] column of a method's
    rows: [mu], [sigma] and [cov]. *)
Definition universality_stats (params : list float) : universality_row :=
  let mu := if 0 <? len params then np_mean params else Float.nan in
  let sigma := if 1 <? len params then np_std_ddof1 params else Float.nan in
  let cov := if Float.truthy mu && negb (Float.isnan mu) && negb (Float.isnan sigma)
             then (sigma / mu)%float else Float.nan in
  mkUniversality mu sigma cov.

(** The body of the loop over methods in [main]: [None] is the [continue] of
    an empty subset. *)
Definition universality (params : list float) : option universality_row :=
  match params with
  | [] => None
  | _ => Some (universality_stats params)
  end.

(** ** Notions the properties are stated with *)

(** The flag of point [j]: the point exists and its slope is at or above the
    cutoff. *)
Definition flag_at (above : list bool) (j : Z) : bool :=
  (0 <=? j) && nth (Z.to_nat j) above false.

(** A persistent run starts at [r]: the [persistence] consecutive points from
    [r] on all exist and are flagged. *)
Definition persistent_run_at (above : list bool) (persistence r : Z) : Prop :=
  0 <= r /\ r + persistence <= len above /\
  forall j, r <= j < r + persistence -> flag_at above j = true.

Definition first_persistent_run (above : list bool) (persistence r : Z) : Prop :=
  persistent_run_at above persistence r /\
  forall r', r' < r -> ~ persistent_run_at above persistence r'.

(** Pointwise implication of two flag sequences of one length. *)
Definition flags_weaker (strict weak : list bool) : Prop :=
  Forall2 (fun b2 b1 => b2 = true -> b1 = true) strict weak.

(** [s] is a floating-point sum of the values of [l]: every value is added
    exactly once, in some order and some grouping of the additions, zero
    being the sum of no value. *)
Inductive float_sum : list float -> float -> Prop :=
| float_sum_nil : float_sum [] 0%float
| float_sum_one (v : float) : float_sum [v] v
| float_sum_add (l1 l2 : list float) (s1 s2 : float) :
    float_sum l1 s1 -> float_sum l2 s2 -> float_sum (l1 ++ l2) (s1 + s2)%float
| float_sum_perm (l l' : list float) (s : float) :
    Permutation l l' -> float_sum l s -> float_sum l' s.

(** The order key of a binary64 value: its class (infinities, signed finite
    values, zeros), then exponent and mantissa, negated for negative values. *)
Definition key (f : spec_float) : Z * Z * Z :=
  match f with
  | S754_nan => (0, 0, 0)
  | S754_zero _ => (0, 0, 0)
  | S754_infinity true => (-2, 0, 0)
  | S754_infinity false => (2, 0, 0)
  | S754_finite true m e => (-1, - e, Z.neg m)
  | S754_finite false m e => (1, e, Z.pos m)
  end.

Definition ordered (f : spec_float) : bool :=
  match f with
  | S754_nan => false
  | _ => true
  end.

Definition key_compare (k1 k2 : Z * Z * Z) : comparison :=
  let '(a1, b1, c1) := k1 in
  let '(a2, b2, c2) := k2 in
  match a1 ?= a2 with
  | Eq => match b1 ?= b2 with
          | Eq => c1 ?= c2
          | c => c
          end
  | c => c
  end.

(** A binary64 value above zero. *)
Definition positive_sf (f : spec_float) : Prop :=
  match f with
  | S754_finite false _ _ => True
  | S754_infinity false => True
  | _ => False
  end.

(** Some point of the window starting at [r] is not flagged. *)
Definition broken (F : Z -> bool) (persistence r : Z) : Prop :=
  exists j, r <= j < r + persistence /\ F j = false.

(** The loop invariant of the scan before it reads point [i] with a counter
    of [k]: the [k] points before [i] are flagged, the point before them is
    not, and every window that ends before [i] is broken. *)
Definition scan_inv (F : Z -> bool) (persistence i k : Z) : Prop :=
  0 <= k < persistence /\ 0 <= i - k /\
  (forall j, i - k <= j < i -> F j = true) /\
  (0 < i - k -> F (i - k - 1) = false) /\
  (forall r, 0 <= r -> r + persistence <= i -> broken F persistence r).

(** ** Concrete inputs

    Values of the library functions at the few points the examples below
    evaluate them; not-a-number stands for every point outside a table. *)

(** [np.log10] at the powers of ten from [10^0] to [10^8], where it is exact. *)
Definition log10_pow10 (v : float) : float :=
  if (v =? 1)%float then 0%float
  else if (v =? 10)%float then 1%float
  else if (v =? 100)%float then 2%float
  else if (v =? 1000)%float then 3%float
  else if (v =? 1e4)%float then 4%float
  else if (v =? 1e5)%float then 5%float
  else if (v =? 1e6)%float then 6%float
  else if (v =? 1e7)%float then 7%float
  else if (v =? 1e8)%float then 8%float
  else Float.nan.

(** [np.log] at [0], [1], [2] and [3]. *)
Definition ln_small (v : float) : float :=
  if (v =? 0)%float then Float.neg_inf
  else if (v =? 1)%float then 0%float
  else if (v =? 2)%float then 0x1.62e42fefa39efp-1%float
  else if (v =? 3)%float then 0x1.193ea7aad030bp+0%float
  else Float.nan.

(** The least-squares solver on a response that is zero everywhere, where the
    solution is zero; it stands for non-convergence anywhere else. *)
Definition lstsq_zero_response (X : list (float * float)) (b : list float)
    : result (float * float) :=
  if forallb (fun v => (v =? 0)%float) b then Ok (0%float, 0%float)
  else Raise LinAlgError.

(** [X @ beta] with every multiplication and addition rounded on its own. *)
Definition matvec (X : list (float * float)) (beta : float * float) : list float :=
  map (fun row => (fst row * fst beta + snd row * snd beta)%float) X.

(** A delay curve over loads [10 .. 10^7]: a jump at the first step, a
    plateau, then tenfold growth per step. *)
Definition spike_x : list float :=
  [10; 100; 1000; 1e4; 1e5; 1e6; 1e7]%float.
Definition spike_y : list float :=
  [1; 1e5; 1e5; 1e5; 1e6; 1e7; 1e8]%float.

(** The selected parameters of four cities under one method. *)
Definition four_cities : list float :=
  [0.5; 0.52; 0.48; 0.51]%float.


(** * The input side of the analysis

    What [pandas] does with the workbook is library code.  A sheet is taken
    after [pd.read_excel] and [pd.to_numeric(errors="coerce")]: its columns by
    name, every cell a float, not-a-number where the cell was missing or not
    numeric. *)

(** Exceptions of the scripts around the numeric core. *)
Inductive script_exn : Type :=
| Core (e : exn)
| SystemExit
| TypeError
| ZeroDivisionError.

Inductive outcome (A : Type) : Type :=
| Returned (a : A)
| Raised (e : script_exn).

Arguments Returned {A} a.
Arguments Raised {A} e.

Definition frame : Type := list (string * list float).

(** [name in df.columns]. *)
Definition has_column (df : frame) (name : string) : bool :=
  existsb (fun c => String.eqb (fst c) name) df.

(** [df[name]]; the empty column stands for a name the callers have checked. *)
Definition column (df : frame) (name : string) : list float :=
  match find (fun c => String.eqb (fst c) name) df with
  | Some c => snd c
  | None => []
  end.

Definition _detect_mean_column (df : frame) : outcome string :=
  if has_column df "mean_delay_s" then Returned "mean_delay_s"%string
  else if has_column df "mean_delta_s" then Returned "mean_delta_s"%string
  else Raised SystemExit.

(** [data.dropna(subset=[value_column, mean_column])] on the two columns
    side by side. *)
Definition dropna (data : list (float * float)) : list (float * float) :=
  filter (fun r => negb (Float.isnan (fst r)) && negb (Float.isnan (snd r))) data.

(** [a[mask]] for a boolean mask of the length of [a]. *)
Fixpoint boolean_index (a : list float) (mask : list bool) : list float :=
  match a, mask with
  | v :: a', b :: mask' =>
      if b then v :: boolean_index a' mask' else boolean_index a' mask'
  | _, _ => []
  end.

Section Summary.

(** [data.sort_values(value_column)]: pandas sorts with an unstable
    quicksort, so the order of rows of equal value is the library's. *)
Variable sort_values : list (float * float) -> list (float * float).

(** [read_summary_series] of [analyze_critical_growth.py]: the rows with a
    non-positive delay are removed from both series.  When the value column
    is the mean column, [df[[c, c]]] has that name twice, [data[c]] is a frame
    of two columns, and [pd.to_numeric] raises [TypeError]. *)
Definition read_summary_series (df : frame) (value_column : string)
    : outcome (list float * list float) :=
  if negb (has_column df value_column) then Raised SystemExit
  else
    match _detect_mean_column df with
    | Raised e => Raised e
    | Returned mean_column =>
        if String.eqb value_column mean_column then Raised TypeError
        else
          let data := combine (column df value_column) (column df mean_column) in
          let data := dropna data in
          let data := sort_values data in
          let x_vals := map (fun r => (fst r * 2)%float) data in
          let y_vals := map snd data in
          let mask := map (fun y => Float.gtb y 0) y_vals in
          Returned (boolean_index x_vals mask, boolean_index y_vals mask)
    end.

End Summary.

Module Analysis.

Section Summary.

Variable sort_values : list (float * float) -> list (float * float).

(** [read_summary_series] of [analysis.py]: a non-positive delay is replaced
    by not-a-number and the row is kept. *)
Definition read_summary_series (df : frame) (value_column : string)
    : outcome (list float * list float) :=
  if negb (has_column df value_column) then Raised SystemExit
  else
    match _detect_mean_column df with
    | Raised e => Raised e
    | Returned mean_column =>
        if String.eqb value_column mean_column then Raised TypeError
        else
          let data := combine (column df value_column) (column df mean_column) in
          let data := dropna data in
          let data := sort_values data in
          let x_vals := map (fun r => (fst r * 2)%float) data in
          let y_vals := map snd data in
          let y_vals := map (fun y => if Float.gtb y 0 then y else Float.nan) y_vals in
          Returned (x_vals, y_vals)
    end.

End Summary.

End Analysis.

(** The rows a summary sheet contributes: both cells numeric, positive delay;
    the load is twice the value. *)
Definition kept_rows (df : frame) (value_column mean_column : string)
    : list (float * float) :=
  map (fun r => ((fst r * 2)%float, snd r))
      (filter (fun r => Float.gtb (snd r) 0)
              (dropna (combine (column df value_column) (column df mean_column)))).

(** A sort of the rows by value, by insertion. *)
Fixpoint insert_row (r : float * float) (l : list (float * float))
    : list (float * float) :=
  match l with
  | [] => [r]
  | r' :: rest =>
      if (fst r <=? fst r')%float then r :: l else r' :: insert_row r rest
  end.

Definition sort_rows (l : list (float * float)) : list (float * float) :=
  fold_right insert_row [] l.

(** A summary sheet of four rows: one delay is zero, one cell is missing. *)
Definition sheet : frame :=
  [("value"%string, [300; 100; 200; 400]%float);
   ("mean_delta_s"%string, [12.5; 0; Float.nan; 3]%float)].


(** What the loop of [np.argmax] keeps: [mp] is the value at [max_ind], no
    earlier value is above it, and every value before [max_ind] is below. *)
Definition argmax_inv (V : Z -> float) (i : Z) (mp : float) (max_ind : Z) : Prop :=
  0 <= max_ind < i /\ mp = V max_ind /\
  (forall j, 0 <= j < i -> (V j <=? mp)%float = true) /\
  (forall j, 0 <= j < max_ind -> (V j <? mp)%float = true).

(** [np.log] at [1], [10] and [100]. *)
Definition ln_pow10 (v : float) : float :=
  if (v =? 1)%float then 0%float
  else if (v =? 10)%float then 2.302585092994046%float
  else if (v =? 100)%float then 4.605170185988092%float
  else Float.nan.

(** A summary sheet of two rows with a delay of one second. *)
Definition flat_sheet : frame :=
  [("value"%string, [50; 5]%float);
   ("mean_delay_s"%string, [1; 1]%float)].

(** * Trip duration statistics ([analysis2.py]) *)

(** [np.std(a, ddof=0)]: the divisor is [max(n - 0, 0)]. *)
Definition np_std_ddof0 (a : list float) : float :=
  let arrmean := np_mean a in
  let x := np_square (np_sub_scalar a arrmean) in
  PrimFloat.sqrt (np_sum x / Float.of_int (Z.max (len a - 0) 0))%float.

Definition compute_stats (values : list float) : Z * float * float :=
  match values with
  | [] => (0, 0%float, 0%float)
  | _ =>
      let arr := values in
      let count := len arr in
      let mean := np_mean arr in
      let std := np_std_ddof0 arr in
      (count, mean, std)
  end.

(** * Trip completion ([analyze_trip_completion.py])

    An XML element is taken after parsing, as the list of its attributes. *)

Definition attribs : Type := list (string * string).

(** [elem.get(key)]: [None] when the attribute is absent. *)
Definition attr_find (elem : attribs) (key : string) : option string :=
  match find (fun p => String.eqb (fst p) key) elem with
  | Some p => Some (snd p)
  | None => None
  end.

(** [elem.get(key, default)]. *)
Definition attr_get (elem : attribs) (key default : string) : string :=
  match attr_find elem key with
  | Some v => v
  | None => default
  end.

(** [sub in s] on strings. *)
Fixpoint contains (sub s : string) : bool :=
  if String.prefix sub s then true
  else match s with
       | EmptyString => false
       | String _ s' => contains sub s'
       end.

(** [s.split(sep)] for a separator of one character. *)
Fixpoint split_on (sep : ascii) (s : string) : list string :=
  match s with
  | EmptyString => [EmptyString]
  | String c s' =>
      if Ascii.eqb c sep then EmptyString :: split_on sep s'
      else match split_on sep s' with
           | part :: parts => String c part :: parts
           | [] => [String c EmptyString]
           end
  end.

Record completion : Type := mkCompletion {
  pt_complete : Z;
  pt_incomplete : Z;
  pv_complete : Z;
  pv_incomplete : Z;
  pt_percentage : float;
  pv_percentage : float
}.

Section TripCompletion.

(** [float(s)]: [None] is [ValueError]. *)
Variable py_float : string -> option float.

(** [s.lower()]. *)
Variable str_lower : string -> string.

(** The three checks of one [tripinfo] element, in the order of the loop
    body. *)
Definition is_complete (tripinfo : attribs) : bool :=
  let is_complete := true in
  let vaporized := attr_get tripinfo "vaporized" "" in
  let is_complete := if String.eqb vaporized "true" then false else is_complete in
  let arrival := attr_get tripinfo "arrival" "" in
  let is_complete := if String.eqb arrival "" then false else is_complete in
  let duration := attr_get tripinfo "duration" "0" in
  let is_complete :=
    match py_float duration with
    | Some d => if (d <=? 0)%float then false else is_complete
    | None => false
    end in
  is_complete.

Definition is_public_transport (tripinfo : attribs) : bool :=
  let vtype := str_lower (attr_get tripinfo "vType" "") in
  contains "bus" vtype || contains "pt" vtype || contains "public" vtype.

(** One turn of the loop over the [tripinfo] elements, on the four
    counters. *)
Definition count_trip (c : Z * Z * Z * Z) (tripinfo : attribs) : Z * Z * Z * Z :=
  let '(pt_complete, pt_incomplete, pv_complete, pv_incomplete) := c in
  if is_public_transport tripinfo then
    if is_complete tripinfo
    then (pt_complete + 1, pt_incomplete, pv_complete, pv_incomplete)
    else (pt_complete, pt_incomplete + 1, pv_complete, pv_incomplete)
  else
    if is_complete tripinfo
    then (pt_complete, pt_incomplete, pv_complete + 1, pv_incomplete)
    else (pt_complete, pt_incomplete, pv_complete, pv_incomplete + 1).

(** [analyze_trip_completion_by_type] on the [tripinfo] elements of the
    file; [None] is a file that does not parse.  The quotient of two counts
    is the quotient of their floats, which is what Python's division of
    integers gives below [2^53]. *)
Definition analyze_trip_completion_by_type (root : option (list attribs))
    : completion :=
  match root with
  | None => mkCompletion 0 0 0 0 0 0
  | Some tripinfos =>
      let '(pt_complete, pt_incomplete, pv_complete, pv_incomplete) :=
        fold_left count_trip tripinfos (0, 0, 0, 0) in
      let pt_total := pt_complete + pt_incomplete in
      let pv_total := pv_complete + pv_incomplete in
      let pt_percentage :=
        if pt_total >? 0
        then (Float.of_int pt_complete / Float.of_int pt_total * 100)%float
        else 0%float in
      let pv_percentage :=
        if pv_total >? 0
        then (Float.of_int pv_complete / Float.of_int pv_total * 100)%float
        else 0%float in
      mkCompletion pt_complete pt_incomplete pv_complete pv_incomplete
                   pt_percentage pv_percentage
  end.

End TripCompletion.

(** The number of elements of [l] that satisfy [f]. *)
Definition count_if {A : Type} (f : A -> bool) (l : list A) : Z :=
  len (filter f l).

(** Two stand-ins for [float] and [lower]: the durations ["12.5"] and ["0"],
    and strings that are already in lower case. *)
Definition float_of_sample (s : string) : option float :=
  if String.eqb s "12.5" then Some 12.5%float
  else if String.eqb s "0" then Some 0%float
  else None.

Definition lower_sample (s : string) : string := s.

Definition sample_trips : list attribs :=
  [[("id", "bus_1"); ("arrival", "310.00"); ("duration", "12.5"); ("vType", "bus")];
   [("id", "veh_7"); ("arrival", "95.00"); ("duration", "12.5"); ("vType", "car");
    ("vaporized", "true")];
   [("id", "veh_8"); ("duration", "12.5"); ("vType", "car")];
   [("id", "pt_2"); ("arrival", "12.00"); ("vType", "pt_tram")]]%string.

(** ** Grouping the simulation outputs by traffic level *)

(** A file of the simulation directory: its path and its name, the last
    component of the path. *)
Abbreviation sim_file := (string * string)%type (only parsing).

(** [traffic_groups]: a dictionary from traffic level to paths, in insertion
    order. *)
Definition traffic_dict : Type := list (Z * list string).

Fixpoint dict_lookup (d : traffic_dict) (k : Z) : option (list string) :=
  match d with
  | [] => None
  | (k', files) :: d' => if k' =? k then Some files else dict_lookup d' k
  end.

(** [if k not in d: d[k] = []] followed by [d[k].append(v)]. *)
Fixpoint dict_append (d : traffic_dict) (k : Z) (v : string) : traffic_dict :=
  match d with
  | [] => [(k, [v])]
  | (k', files) :: d' =>
      if k' =? k then (k', files ++ [v]) :: d'
      else (k', files) :: dict_append d' k v
  end.

Section Grouping.

(** [int(s)]: [None] is [ValueError]. *)
Variable py_int : string -> option Z.

(** The traffic level in a file name such as
    [4_10000_1_Debrecen_sim_output.xml]: the second part between
    underscores, when there are two parts and it is an integer. *)
Definition traffic_level_of (filename : string) : option Z :=
  let parts := split_on "_" filename in
  if 2 <=? len parts then py_int (nth 1 parts EmptyString) else None.

Definition group_file (traffic_groups : traffic_dict) (f : sim_file) : traffic_dict :=
  match traffic_level_of (snd f) with
  | Some traffic_level => dict_append traffic_groups traffic_level (fst f)
  | None => traffic_groups
  end.

(** The body of the loop of [find_simulation_files] for one city, from the
    [*.xml] files of its [outputs/sim] directory to the dictionary stored
    for the city. *)
Definition group_by_traffic_level (xml_files : list sim_file) : traffic_dict :=
  let sim_files := filter (fun f => contains "sim_output" (snd f)) xml_files in
  fold_left group_file sim_files [].

(** The name of [f] carries the traffic level [k]. *)
Definition level_is (k : Z) (f : sim_file) : bool :=
  match traffic_level_of (snd f) with
  | Some traffic_level => traffic_level =? k
  | None => false
  end.

(** The file [f] is a simulation output of traffic level [k]. *)
Definition has_level (k : Z) (f : sim_file) : bool :=
  contains "sim_output" (snd f) && level_is k f.

(** The dictionary entry of level [k] after the files [done]. *)
Definition entry_of (k : Z) (done : list sim_file) : option (list string) :=
  match map fst (filter (level_is k) done) with
  | [] => None
  | files => Some files
  end.

End Grouping.

(** [int] on the two levels of the sample directory. *)
Definition int_of_sample (s : string) : option Z :=
  if String.eqb s "10000" then Some 10000
  else if String.eqb s "20000" then Some 20000
  else None.

Definition sample_directory : list sim_file :=
  [("sim/4_10000_1_Szeged_sim_output.xml", "4_10000_1_Szeged_sim_output.xml");
   ("sim/4_20000_1_Szeged_sim_output.xml", "4_20000_1_Szeged_sim_output.xml");
   ("sim/notes.xml", "notes.xml");
   ("sim/4_10000_2_Szeged_sim_output.xml", "4_10000_2_Szeged_sim_output.xml");
   ("sim/sim_output.xml", "sim_output.xml")]%string.

(** * The centre of a network ([get_center.py]) *)

Section Center.

(** [float(s)] and [s.split()], the split on runs of white space. *)
Variable py_float : string -> option float.
Variable split_ws : string -> list string.

(** [tuple(map(float, coord.split(',')))]. *)
Fixpoint floats_of (parts : list string) : outcome (list float) :=
  match parts with
  | [] => Returned []
  | part :: rest =>
      match py_float part with
      | None => Raised (Core ValueError)
      | Some v =>
          match floats_of rest with
          | Returned vs => Returned (v :: vs)
          | Raised e => Raised e
          end
      end
  end.

(** [[tuple(map(float, coord.split(','))) for coord in shape]]. *)
Fixpoint coords_of (shape : list string) : outcome (list (list float)) :=
  match shape with
  | [] => Returned []
  | coord :: rest =>
      match floats_of (split_on "," coord) with
      | Raised e => Raised e
      | Returned c =>
          match coords_of rest with
          | Returned cs => Returned (c :: cs)
          | Raised e => Raised e
          end
      end
  end.

(** The loop over the edges, on [x_sum], [y_sum] and [count]. *)
Fixpoint sum_first_points (edges : list attribs) (x_sum y_sum : float) (count : Z)
    : outcome (float * float * Z) :=
  match edges with
  | [] => Returned (x_sum, y_sum, count)
  | edge :: rest =>
      match attr_find edge "shape" with
      | None => sum_first_points rest x_sum y_sum count
      | Some shape_attr =>
          let shape := split_ws shape_attr in
          match coords_of shape with
          | Raised e => Raised e
          | Returned coords =>
              match coords with
              | [] => Raised (Core IndexError)
              | [x; y] :: _ =>
                  sum_first_points rest (x_sum + x)%float (y_sum + y)%float (count + 1)
              | _ :: _ => Raised (Core ValueError)
              end
          end
      end
  end.

(** [find_average_center] on the [edge] children of the root.  The sums
    start as the integer [0], so that without any shape the division is one
    of integers by zero. *)
Definition find_average_center (edges : list attribs) : outcome (float * float) :=
  match sum_first_points edges 0 0 0 with
  | Raised e => Raised e
  | Returned (x_sum, y_sum, count) =>
      if count =? 0 then Raised ZeroDivisionError
      else Returned ((x_sum / Float.of_int count)%float,
                     (y_sum / Float.of_int count)%float)
  end.

End Center.

(** [float] on the coordinates of the sample network, and the split of its
    shapes. *)
Definition float_of_coord (s : string) : option float :=
  if String.eqb s "0.00" then Some 0%float
  else if String.eqb s "10.00" then Some 10%float
  else if String.eqb s "30.00" then Some 30%float
  else None.

Definition split_sample (s : string) : list string :=
  if String.eqb s "0.00,10.00 10.00,10.00" then ["0.00,10.00"; "10.00,10.00"]%string
  else if String.eqb s "30.00,30.00" then ["30.00,30.00"]%string
  else if String.eqb s "0.00,0.00,0.00 10.00,10.00,0.00"
       then ["0.00,0.00,0.00"; "10.00,10.00,0.00"]%string
  else [].

(** * Stop locations and delays ([create_delay_heatmaps.py]) *)

(** A point of the plane, and dictionaries keyed by stop or lane, in
    insertion order. *)
Abbreviation point := (float * float)%type (only parsing).

(** [key in d]. *)
Definition dict_mem {V : Type} (d : list (string * V)) (key : string) : bool :=
  existsb (fun p => String.eqb (fst p) key) d.

(** [d[key]] for a key of [d]. *)
Definition dict_find {V : Type} (d : list (string * V)) (key : string) : option V :=
  match find (fun p => String.eqb (fst p) key) d with
  | Some p => Some (snd p)
  | None => None
  end.

(** [d[key] = v]: the value is replaced in place, a new key goes last. *)
Fixpoint dict_set {V : Type} (d : list (string * V)) (key : string) (v : V)
    : list (string * V) :=
  match d with
  | [] => [(key, v)]
  | (k, w) :: d' =>
      if String.eqb k key then (k, v) :: d' else (k, w) :: dict_set d' key v
  end.

(** The truth value of a string. *)
Definition nonempty (s : string) : bool := negb (String.eqb s "").

Section StopLocations.

Variable py_float : string -> option float.
Variable split_ws : string -> list string.

(** The loop over the points of one lane shape; [None] is an exception. *)
Fixpoint lane_coords_of (points : list string) : option (list point) :=
  match points with
  | [] => Some []
  | point :: rest =>
      if contains "," point then
        match split_on "," point with
        | [x; y] =>
            match py_float x, py_float y with
            | Some fx, Some fy =>
                match lane_coords_of rest with
                | Some coords => Some ((fx, fy) :: coords)
                | None => None
                end
            | _, _ => None
            end
        | _ => None
        end
      else lane_coords_of rest
  end.

(** The loop over the lanes of the network, on [lane_coords]; [None] is an
    exception. *)
Fixpoint read_lanes (lanes : list attribs) (lane_coords : list (string * point))
    : option (list (string * point)) :=
  match lanes with
  | [] => Some lane_coords
  | lane :: rest =>
      match attr_find lane "id", attr_find lane "shape" with
      | Some lane_id, Some shape =>
          if nonempty lane_id && nonempty shape then
            match lane_coords_of (split_ws shape) with
            | None => None
            | Some [] => read_lanes rest lane_coords
            | Some coords =>
                let mid_idx := Nat.div (length coords) 2 in
                read_lanes rest
                  (dict_set lane_coords lane_id (nth mid_idx coords (0, 0)%float))
            end
          else read_lanes rest lane_coords
      | _, _ => read_lanes rest lane_coords
      end
  end.

(** One turn of the loop over the [busStop] elements. *)
Definition add_stop (lane_coords : list (string * point))
    (stop_locations : list (string * point)) (bus_stop : attribs)
    : list (string * point) :=
  match attr_find bus_stop "id", attr_find bus_stop "lane" with
  | Some stop_id, Some lane =>
      if nonempty stop_id && nonempty lane then
        match dict_find lane_coords lane with
        | Some coord => dict_set stop_locations stop_id coord
        | None => stop_locations
        end
      else stop_locations
  | _, _ => stop_locations
  end.

(** [parse_stop_locations_from_xml] on the two parsed files: the [busStop]
    elements of the first, the lanes of every [edge] of the second; [None]
    is a file that does not parse. *)
Definition parse_stop_locations_from_xml (gtfs_add : option (list attribs))
    (network : option (list (list attribs))) : list (string * point) :=
  match network with
  | None => []
  | Some edges =>
      match read_lanes (concat edges) [] with
      | None => []
      | Some lane_coords =>
          match gtfs_add with
          | None => []
          | Some bus_stops => fold_left (add_stop lane_coords) bus_stops []
          end
      end
  end.

(** A point of a shape that stops the reading: it has a comma and is not
    two numbers around one comma. *)
Definition bad_point (point : string) : Prop :=
  contains "," point = true /\
  forall x y, split_on "," point = [x; y] ->
              py_float x = None \/ py_float y = None.

(** A lane entry comes from a lane of the network: the middle point of its
    shape. *)
Definition from_lane (lanes : list attribs) (lane_id : string) (coord : point)
    : Prop :=
  exists lane shape coords,
    In lane lanes /\ attr_find lane "id" = Some lane_id /\
    attr_find lane "shape" = Some shape /\
    lane_coords_of (split_ws shape) = Some coords /\
    coord = nth (Nat.div (length coords) 2) coords (0, 0)%float /\
    In coord coords.

End StopLocations.

(** The loop of [create_heatmap] that matches the stops with a location and
    a delay: [x_coords], [y_coords] and [delays]. *)
Fixpoint matched_points (stop_locations : list (string * point))
    (stop_delays : list (string * float))
    : list float * list float * list float :=
  match stop_locations with
  | [] => ([], [], [])
  | (stop_id, (x, y)) :: rest =>
      let '(x_coords, y_coords, delays) := matched_points rest stop_delays in
      match dict_find stop_delays stop_id with
      | Some delay => (x :: x_coords, y :: y_coords, delay :: delays)
      | None => (x_coords, y_coords, delays)
      end
  end.

(** * Trip durations ([analysis2.py]) *)

(** An element that [ET.iterparse] yields at its end: tag and attributes. *)
Abbreviation element := (string * attribs)%type (only parsing).

Section Durations.

Variable py_float : string -> option float.

(** The loop of [parse_tripinfo_durations] over the elements read. *)
Fixpoint collect_durations (elems : list element) : list float :=
  match elems with
  | [] => []
  | (tag, attrib) :: rest =>
      if String.eqb tag "tripinfo" then
        match attr_find attrib "duration" with
        | Some duration_str =>
            match py_float duration_str with
            | Some duration => duration :: collect_durations rest
            | None => collect_durations rest
            end
        | None => collect_durations rest
        end
      else collect_durations rest
  end.

(** [parse_tripinfo_durations] on a file that exists: the elements read, and
    whether the parser got to the end of the file without a [ParseError]. *)
Definition parse_tripinfo_durations (elems : list element) (well_formed : bool)
    : outcome (list float) :=
  if well_formed then Returned (collect_durations elems)
  else Raised SystemExit.

(** A [tripinfo] element, and one whose duration is a number. *)
Definition is_tripinfo (elem : element) : bool :=
  String.eqb (fst elem) "tripinfo".

Definition has_duration (elem : element) : bool :=
  is_tripinfo elem &&
  match attr_find (snd elem) "duration" with
  | Some duration_str =>
      match py_float duration_str with
      | Some _ => true
      | None => false
      end
  | None => false
  end.

End Durations.

(** * Properties *)

(** ** The order of binary64 values

    [SFcompare] orders the values that are not not-a-number by a lexicographic
    key: the class (infinities, signed finite values, zeros), then exponent and
    mantissa, both negated for negative values. *)

Module FloatOrder.

Lemma SFcompare_key (f g : spec_float) :
  SFcompare f g =
    if ordered f && ordered g then Some (key_compare (key f) (key g)) else None.
Proof.
  destruct f as [[|]|[|]| |[|] m1 e1], g as [[|]|[|]| |[|] m2 e2];
    try reflexivity; cbn -[Z.compare].
  change (-1 ?= -1) with Eq. cbv iota.
  rewrite Z.compare_opp, (Z.compare_antisym e1 e2).
  destruct (e1 ?= e2); reflexivity.
Qed.

Lemma key_compare_lt k1 k2 k3 :
  key_compare k1 k2 <> Gt -> key_compare k2 k3 <> Gt -> key_compare k1 k3 <> Gt.
Proof.
  destruct k1 as [[a1 b1] c1], k2 as [[a2 b2] c2], k3 as [[a3 b3] c3].
  unfold key_compare.
  destruct (Z.compare_spec a1 a2), (Z.compare_spec a2 a3), (Z.compare_spec a1 a3);
    try lia; try congruence;
    destruct (Z.compare_spec b1 b2), (Z.compare_spec b2 b3), (Z.compare_spec b1 b3);
    try lia; try congruence;
    destruct (Z.compare_spec c1 c2), (Z.compare_spec c2 c3), (Z.compare_spec c1 c3);
    try lia; congruence.
Qed.

Lemma key_compare_antisym k1 k2 :
  key_compare k2 k1 = CompOpp (key_compare k1 k2).
Proof.
  destruct k1 as [[a1 b1] c1], k2 as [[a2 b2] c2]. unfold key_compare.
  rewrite (Z.compare_antisym a1 a2), (Z.compare_antisym b1 b2),
    (Z.compare_antisym c1 c2).
  destruct (a1 ?= a2), (b1 ?= b2), (c1 ?= c2); reflexivity.
Qed.

Lemma SFleb_trans f g h :
  SFleb f g = true -> SFleb g h = true -> SFleb f h = true.
Proof.
  unfold SFleb. rewrite !SFcompare_key.
  destruct (ordered f), (ordered g), (ordered h); cbn; try discriminate.
  intros H1 H2.
  assert (N := key_compare_lt (key f) (key g) (key h)).
  destruct (key_compare (key f) (key g)), (key_compare (key g) (key h));
    try discriminate;
    destruct (key_compare (key f) (key h)); try reflexivity;
    exfalso; apply N; congruence.
Qed.



(** The same facts on primitive floats. *)

Lemma leb_trans (a b c : float) :
  (a <=? b)%float = true -> (b <=? c)%float = true -> (a <=? c)%float = true.
Proof. rewrite !leb_spec. apply SFleb_trans. Qed.



End FloatOrder.

(** ** Conversion of a positive integer

    Rounding a positive integer below [2^63] to binary64 gives a positive
    value: the right shifts of [binary_round_aux] never drop the leading
    digit of the mantissa. *)

Module FloatInt.

Lemma iter_pos_Pos_iter {A : Type} (f : A -> A) (n : positive) (x : A) :
  iter_pos f n x = Pos.iter f x n.
Proof.
  revert x. induction n as [n IH|n IH|]; intros x; cbn.
  - rewrite !IH. rewrite <- !Pos.iter_swap. reflexivity.
  - rewrite !IH. reflexivity.
  - reflexivity.
Qed.

Lemma shr_1_div2 mrs : 0 <= shr_m mrs -> shr_m (shr_1 mrs) = Z.div2 (shr_m mrs).
Proof.
  destruct mrs as [[|[p|p|]|p] r s]; cbn; intros H; try reflexivity; lia.
Qed.

Lemma shr_iter_shiftr n mrs :
  0 <= shr_m mrs -> shr_m (iter_pos shr_1 n mrs) = Z.shiftr (shr_m mrs) (Zpos n).
Proof.
  intros H. rewrite iter_pos_Pos_iter.
  change (Z.shiftr (shr_m mrs) (Z.pos n)) with (Pos.iter Z.div2 (shr_m mrs) n).
  revert mrs H. induction n as [|n IH] using Pos.peano_ind; intros mrs H.
  - cbn. apply shr_1_div2, H.
  - rewrite !Pos.iter_succ. rewrite shr_1_div2.
    + f_equal. apply IH, H.
    + rewrite IH by exact H.
      change (Pos.iter Z.div2 (shr_m mrs) n) with (Z.shiftr (shr_m mrs) (Z.pos n)).
      apply Z.shiftr_nonneg, H.
Qed.

Lemma digits2_bounds p :
  2 ^ (Zpos (digits2_pos p) - 1) <= Zpos p < 2 ^ Zpos (digits2_pos p).
Proof.
  induction p as [p IH|p IH|]; cbn [digits2_pos].
  - rewrite Pos2Z.inj_succ. replace (Z.succ (Zpos (digits2_pos p)) - 1) with (Z.succ (Zpos (digits2_pos p) - 1)) by lia.
    rewrite !Z.pow_succ_r by lia. lia.
  - rewrite Pos2Z.inj_succ. replace (Z.succ (Zpos (digits2_pos p)) - 1) with (Z.succ (Zpos (digits2_pos p) - 1)) by lia.
    rewrite !Z.pow_succ_r by lia. lia.
  - cbn. lia.
Qed.

Lemma shr_record_of_loc_m m l : shr_m (shr_record_of_loc m l) = m.
Proof. destruct l as [|[| |]]; reflexivity. Qed.

Lemma shr_fexp_pos m e l :
  0 < m -> SpecFloat.emin prec emax <= e ->
  0 < shr_m (fst (shr_fexp prec emax m e l)) /\
  SpecFloat.emin prec emax <= snd (shr_fexp prec emax m e l).
Proof.
  intros Hm He. unfold shr_fexp, shr.
  destruct m as [|p|p]; try lia. cbn [Zdigits2].
  pose proof (digits2_bounds p) as [Hlo _].
  set (d := Zpos (digits2_pos p)) in *.
  assert (Hn : SpecFloat.fexp prec emax (d + e) - e <= d - 1).
  { assert (0 < d) by (unfold d; lia).
    unfold SpecFloat.fexp, SpecFloat.emin, prec, emax in *. lia. }
  destruct (SpecFloat.fexp prec emax (d + e) - e) as [|q|q] eqn:E; cbn [fst snd].
  - rewrite shr_record_of_loc_m. lia.
  - rewrite shr_iter_shiftr by (rewrite shr_record_of_loc_m; lia).
    rewrite shr_record_of_loc_m, Z.shiftr_div_pow2 by lia.
    split; [|lia].
    apply Z.div_str_pos. split; [apply Z.pow_pos_nonneg; lia|].
    etransitivity; [|exact Hlo]. apply Z.pow_le_mono_r; lia.
  - rewrite shr_record_of_loc_m. lia.
Qed.

Lemma round_nearest_even_pos m l : 0 < m -> 0 < round_nearest_even m l.
Proof. destruct l as [|[| |]]; cbn; try destruct (Z.even m); lia. Qed.

Lemma binary_round_aux_positive m e l :
  0 < m -> SpecFloat.emin prec emax <= e ->
  positive_sf (binary_round_aux prec emax false m e l).
Proof.
  intros Hm He. unfold binary_round_aux.
  destruct (shr_fexp_pos m e l Hm He) as [H1 H2].
  destruct (shr_fexp prec emax m e l) as [mrs' e']. cbn [fst snd] in *.
  pose proof (round_nearest_even_pos _ (loc_of_shr_record mrs') H1) as H3.
  destruct (shr_fexp_pos _ e' loc_Exact H3 H2) as [H4 _].
  destruct (shr_fexp prec emax _ e' loc_Exact) as [mrs'' e'']. cbn [fst snd] in *.
  destruct (shr_m mrs''); try lia.
  destruct (e'' <=? emax - prec); exact I.
Qed.

Lemma binary_normalize_positive n :
  0 < n -> positive_sf (binary_normalize prec emax n 0 false).
Proof.
  destruct n as [|p|p]; try lia. intros _.
  unfold binary_normalize, binary_round, shl_align.
  set (ex' := SpecFloat.fexp prec emax (Zpos (digits2_pos p) + 0)).
  assert (SpecFloat.emin prec emax <= ex') by (unfold ex', SpecFloat.fexp; lia).
  destruct (ex' - 0); apply binary_round_aux_positive; try lia;
    unfold SpecFloat.emin, emax, prec; lia.
Qed.

Lemma of_int_positive n :
  0 < n < 2 ^ 63 -> positive_sf (Prim2SF (Float.of_int n)).
Proof.
  intros H. unfold Float.of_int.
  destruct (Z.ltb_spec n 0); [lia|].
  rewrite of_uint63_spec, Uint63.of_Z_spec.
  rewrite Z.mod_small by (change Uint63.wB with (2 ^ 63); lia).
  apply binary_normalize_positive. lia.
Qed.

End FloatInt.

(** ** Special values in the AIC expression *)

Module FloatSpecial.

Lemma zero_of_eqb (v : float) :
  (v =? 0)%float = true -> exists s, Prim2SF v = S754_zero s.
Proof.
  rewrite eqb_spec. change (Prim2SF 0%float) with (S754_zero false).
  destruct (Prim2SF v) as [s|[|]| |[|] m e]; cbn; try discriminate.
  intros _. exists s. reflexivity.
Qed.

Lemma eqb_zero_of_SF (v : float) (s : bool) :
  Prim2SF v = S754_zero s -> (v =? 0)%float = true.
Proof.
  intros H. rewrite eqb_spec, H. reflexivity.
Qed.

Lemma div_zero_positive (v d : float) :
  (v =? 0)%float = true -> positive_sf (Prim2SF d) ->
  (v / d =? 0)%float = true.
Proof.
  intros Hv Hd. destruct (zero_of_eqb v Hv) as [s Hs].
  apply (eqb_zero_of_SF _ (xorb s false)).
  rewrite div_spec, Hs. unfold SF64div.
  destruct (Prim2SF d) as [?|[|]| |[|] m e]; cbn in Hd |- *;
    try contradiction; reflexivity.
Qed.

Lemma mul_positive_neg_inf (a : float) :
  positive_sf (Prim2SF a) -> (a * neg_infinity)%float = neg_infinity.
Proof.
  intros Ha. apply Prim2SF_inj. rewrite mul_spec.
  change (Prim2SF neg_infinity) with (S754_infinity true). unfold SF64mul.
  destruct (Prim2SF a) as [?|[|]| |[|] m e]; cbn in Ha |- *;
    try contradiction; reflexivity.
Qed.

End FloatSpecial.

(** ** Model selection *)



(** ** Smoother *)

Lemma np_pad_edge_nonempty (a : list float) (pad : nat) :
  a <> [] -> exists padded, np_pad_edge a pad = Ok padded.
Proof.
  destruct a as [|v a]; [congruence|]. intros _. eexists. reflexivity.
Qed.

(** C6, as stated, fails on the empty sequence: with a window of 2 or more the
    edge padding has no element to repeat and raises. *)
Lemma rolling_median_empty_raises :
  rolling_median [] 3 = Raise ValueError /\
  (forall out, rolling_median [] 3 <> Ok out).
Proof.
  split; [reflexivity|]. intros out. cbn. discriminate.
Qed.

Lemma rolling_median_nonempty_ok (a : list float) (window : Z) :
  a <> [] ->
  exists out, rolling_median a window = Ok out /\ length out = length a.
Proof.
  intros Ha. unfold rolling_median. destruct (window <=? 1).
  - exists a. split; reflexivity.
  - destruct (np_pad_edge_nonempty a (Z.to_nat (window / 2)) Ha) as [padded ->].
    cbn. eexists. split; [reflexivity|].
    rewrite length_map, length_seq. reflexivity.
Qed.

(** C6, amended: for every window, [rolling_median] of a non-empty sequence
    returns a sequence of the same length; and for a window of at most 1 it
    returns its input unchanged, empty or not. *)
Theorem rolling_median_length_identity (a : list float) (window : Z) :
  (a <> [] ->
   exists out, rolling_median a window = Ok out /\ length out = length a) /\
  (window <= 1 -> rolling_median a window = Ok a).
Proof.
  split.
  - apply rolling_median_nonempty_ok.
  - intros Hw. unfold rolling_median.
    apply Z.leb_le in Hw. rewrite Hw. reflexivity.
Qed.

(** ** Slope profile *)

Lemma np_gradient_short (f : list float) :
  (length f <= 1)%nat -> np_gradient f = Raise ValueError.
Proof.
  intros H. unfold np_gradient.
  destruct (Nat.ltb_spec (length f) 2); [reflexivity|lia].
Qed.

Lemma np_gradient_ok (f : list float) :
  (2 <= length f)%nat ->
  exists g, np_gradient f = Ok g /\ length g = length f.
Proof.
  intros H. unfold np_gradient.
  destruct (Nat.ltb_spec (length f) 2); [lia|].
  eexists. split; [reflexivity|]. rewrite length_map, length_seq. reflexivity.
Qed.

Lemma np_divide_where_nonzero_ok (a b : list float) :
  length a = length b ->
  exists q, np_divide_where_nonzero a b = Ok q /\ length q = length a.
Proof.
  intros H. unfold np_divide_where_nonzero.
  rewrite H, Nat.eqb_refl. eexists. split; [reflexivity|].
  rewrite length_map, length_combine, H. apply Nat.min_id.
Qed.

Lemma compute_local_log_slope_ok (np_log10 : float -> float)
    (x y : list float) (smooth_window : Z) :
  length x = length y -> (2 <= length x)%nat ->
  exists s, compute_local_log_slope np_log10 x y smooth_window = Ok s /\
            length s = length x.
Proof.
  intros Hxy Hx. unfold compute_local_log_slope.
  destruct (np_gradient_ok (map np_log10 y)) as (dly & -> & Ly);
    [rewrite length_map; lia|].
  destruct (np_gradient_ok (map np_log10 x)) as (dlx & -> & Lx);
    [rewrite length_map; lia|].
  rewrite length_map in Ly, Lx. cbn [bind].
  destruct (np_divide_where_nonzero_ok dly dlx) as (slope & -> & Ls); [lia|].
  cbn [bind].
  destruct (rolling_median_nonempty_ok slope smooth_window) as (s & -> & L).
  - intros ->. cbn in Ls. lia.
  - exists s. split; [reflexivity|lia].
Qed.

(** ** Threshold detection *)

(** C2 fails on the code: a curve of 0 or 1 points never reaches the scan or
    the guard on an empty profile, because [np.gradient] refuses fewer than
    two samples and [detect_threshold] raises [ValueError]. *)
Theorem detect_threshold_short_curve_raises (np_log10 : float -> float)
    (x y : list float) (slope_cutoff : float) (persistence smooth_window : Z) :
  length x = length y -> (length x <= 1)%nat ->
  detect_threshold np_log10 x y slope_cutoff persistence smooth_window
  = Raise ValueError.
Proof.
  intros Hxy Hx. unfold detect_threshold, compute_local_log_slope.
  rewrite (np_gradient_short (map np_log10 y)); [reflexivity|].
  rewrite length_map. lia.
Qed.

Lemma detect_threshold_short_curve_raises_witness :
  detect_threshold log10_pow10 [] [] 1 3 3 = Raise ValueError /\
  detect_threshold log10_pow10 [10%float] [1e5%float] 1 3 3 = Raise ValueError.
Proof.
  split.
  - apply (detect_threshold_short_curve_raises log10_pow10 [] []);
      [reflexivity | cbn; lia].
  - apply (detect_threshold_short_curve_raises log10_pow10 [10%float] [1e5%float]);
      [reflexivity | cbn; lia].
Defined.

Lemma scan_lower (above : list bool) (i count persistence r : Z) :
  scan above i count persistence = Some r -> i - persistence + 1 <= r.
Proof.
  revert i count. induction above as [|flag rest IH]; intros i count; cbn.
  - discriminate.
  - destruct flag.
    + destruct (count + 1 >=? persistence).
      * intros [= <-]. lia.
      * intros H. apply IH in H. lia.
    + intros H. apply IH in H. lia.
Qed.

Lemma scan_range (above : list bool) (i count persistence r : Z) :
  1 <= persistence -> 0 <= count ->
  scan above i count persistence = Some r ->
  i - count <= r <= i + len above - 1.
Proof.
  intros Hp. revert i count. unfold len.
  induction above as [|flag rest IH]; intros i count Hc; cbn [scan length].
  - discriminate.
  - rewrite Nat2Z.inj_succ. destruct flag.
    + destruct (Z.geb_spec (count + 1) persistence) as [Hge|Hlt].
      * intros [= <-]. lia.
      * intros E. apply IH in E; lia.
    + intros E. apply IH in E; lia.
Qed.

Lemma argmax_loop_range (l : list float) (i : Z) (mp : float) (max_ind : Z) :
  0 <= max_ind < i ->
  0 <= argmax_loop l i mp max_ind < i + len l.
Proof.
  revert i mp max_ind. unfold len.
  induction l as [|v rest IH]; intros i mp max_ind H; cbn [argmax_loop length].
  - lia.
  - rewrite Nat2Z.inj_succ.
    destruct (negb (v <=? mp)%float).
    + destruct (Float.isnan v); [lia|].
      specialize (IH (i + 1) v i). lia.
    + specialize (IH (i + 1) mp max_ind). lia.
Qed.

Lemma np_argmax_range (s : list float) :
  s <> [] -> exists i, np_argmax s = Ok i /\ 0 <= i <= len s - 1.
Proof.
  destruct s as [|v rest]; [congruence|]. intros _. cbn [np_argmax].
  eexists. split; [reflexivity|].
  unfold len. cbn [length]. rewrite Nat2Z.inj_succ.
  destruct (Float.isnan v); [lia|].
  pose proof (argmax_loop_range rest 1 v 0). unfold len in *. lia.
Qed.

Lemma threshold_of_slopes_range (s : list float) (slope_cutoff : float)
    (persistence : Z) :
  s <> [] -> 1 <= persistence ->
  exists i, threshold_of_slopes s slope_cutoff persistence = Ok i /\
            0 <= i <= len s - 1.
Proof.
  intros Hs Hp. unfold threshold_of_slopes.
  destruct (scan (above_cutoff s slope_cutoff) 0 0 persistence) as [r|] eqn:E.
  - exists r. split; [reflexivity|].
    apply scan_range in E; try lia.
    unfold above_cutoff, len in *. rewrite length_map in E. lia.
  - destruct s as [|v rest]; [congruence|].
    apply np_argmax_range. discriminate.
Qed.

Lemma py_slice_from_nonempty (a : list float) (i : Z) :
  0 <= i <= len a - 1 -> py_slice_from a i <> [].
Proof.
  intros H. unfold py_slice_from, len in *.
  destruct (Z.ltb_spec i 0); [lia|].
  intros E. apply (f_equal (@length float)) in E.
  rewrite length_skipn in E. cbn in E. lia.
Qed.

Lemma detect_threshold_returns_index (np_log10 : float -> float)
    (x y : list float) (slope_cutoff : float) (persistence smooth_window : Z) :
  length x = length y -> (2 <= length x)%nat -> 1 <= persistence ->
  exists i,
    detect_threshold np_log10 x y slope_cutoff persistence smooth_window = Ok i /\
    0 <= i <= len x - 1.
Proof.
  intros Hxy Hx Hp. unfold detect_threshold.
  destruct (compute_local_log_slope_ok np_log10 x y smooth_window Hxy Hx)
    as (s & -> & Ls).
  cbn [bind].
  destruct (threshold_of_slopes_range s slope_cutoff persistence) as (i & -> & Hi);
    [intros ->; cbn in Ls; lia | exact Hp |].
  exists i. split; [reflexivity|]. unfold len in *. lia.
Qed.

(** C10: on a curve of at least 2 points, with [persistence >= 1],
    [detect_threshold] returns an index between 0 and the last position, so
    the slices [x[idx_th:]] and [y[idx_th:]] are not empty. *)
Theorem detect_threshold_index_in_range (np_log10 : float -> float)
    (x y : list float) (slope_cutoff : float) (persistence smooth_window : Z) :
  length x = length y -> (2 <= length x)%nat -> 1 <= persistence ->
  exists i,
    detect_threshold np_log10 x y slope_cutoff persistence smooth_window = Ok i /\
    0 <= i <= len x - 1 /\
    py_slice_from x i <> [] /\ py_slice_from y i <> [].
Proof.
  intros Hxy Hx Hp.
  destruct (detect_threshold_returns_index np_log10 x y slope_cutoff
              persistence smooth_window Hxy Hx Hp) as (i & E & Hi).
  exists i. repeat split; try lia; try exact E.
  - apply py_slice_from_nonempty, Hi.
  - apply py_slice_from_nonempty. unfold len in *. lia.
Qed.

Lemma detect_threshold_index_in_range_witness :
  exists i,
    detect_threshold log10_pow10 spike_x spike_y 0.75 3 3 = Ok i /\
    0 <= i <= len spike_x - 1 /\
    py_slice_from spike_x i <> [] /\ py_slice_from spike_y i <> [].
Proof.
  apply (detect_threshold_index_in_range log10_pow10 spike_x spike_y 0.75%float 3 3);
    [reflexivity | cbn; lia | lia].
Defined.

(** *** Raising the cutoff *)

Lemma above_cutoff_weaker (s : list float) (c1 c2 : float) :
  (c1 <=? c2)%float = true ->
  flags_weaker (above_cutoff s c2) (above_cutoff s c1).
Proof.
  intros Hc. unfold flags_weaker, above_cutoff.
  induction s as [|v rest IH]; cbn; constructor; [|exact IH].
  unfold Float.geb. intros H. exact (FloatOrder.leb_trans c1 c2 v Hc H).
Qed.

(** A run found under the stricter flags is found no later under the weaker
    ones, whatever the counters, as long as the weaker scan is not behind. *)
Lemma scan_weaker_finds_earlier (strict weak : list bool) (persistence : Z) :
  flags_weaker strict weak ->
  forall i k2 k1 r2,
    0 <= k2 <= k1 ->
    scan strict i k2 persistence = Some r2 ->
    exists r1, scan weak i k1 persistence = Some r1 /\ r1 <= r2.
Proof.
  induction 1 as [|b2 b1 strict weak Hb _ IH]; intros i k2 k1 r2 Hk; cbn [scan].
  - discriminate.
  - destruct b2.
    + rewrite (Hb eq_refl).
      destruct (Z.geb_spec (k2 + 1) persistence) as [G2|L2].
      * intros [= <-].
        destruct (Z.geb_spec (k1 + 1) persistence); [|lia].
        eexists. split; [reflexivity|lia].
      * intros E.
        destruct (Z.geb_spec (k1 + 1) persistence).
        -- eexists. split; [reflexivity|]. apply scan_lower in E. lia.
        -- apply (IH _ _ (k1 + 1)) in E; [exact E|lia].
    + intros E. destruct b1.
      * destruct (Z.geb_spec (k1 + 1) persistence).
        -- eexists. split; [reflexivity|]. apply scan_lower in E. lia.
        -- apply (IH _ _ (k1 + 1)) in E; [exact E|lia].
      * apply (IH _ _ 0) in E; [exact E|lia].
Qed.

(** C3, as stated, fails: on the curve [spike_x], [spike_y] with the default
    persistence and window, the cutoff 0.75 finds the persistent run starting
    at index 4, while the cutoff 3 finds no run and falls back to the index
    of the maximum slope, 0. *)
Lemma detect_threshold_not_monotone :
  (0.75 <=? 3)%float = true /\
  detect_threshold log10_pow10 spike_x spike_y 0.75 3 3 = Ok 4 /\
  detect_threshold log10_pow10 spike_x spike_y 3 3 3 = Ok 0.
Proof.
  repeat split; vm_compute; reflexivity.
Qed.

(** C3, amended: for cutoffs [c1 <= c2] on one curve, persistence and window,
    the index returned with [c2] is at least the index returned with [c1]
    whenever the scan with [c2] finds a persistent run, or the scan with [c1]
    finds none (then both return the index of the maximum slope). *)
Theorem detect_threshold_monotone_on_runs (np_log10 : float -> float)
    (x y : list float) (c1 c2 : float) (persistence smooth_window : Z)
    (s : list float) (i1 i2 : Z) :
  (c1 <=? c2)%float = true ->
  compute_local_log_slope np_log10 x y smooth_window = Ok s ->
  scan (above_cutoff s c2) 0 0 persistence <> None \/
  scan (above_cutoff s c1) 0 0 persistence = None ->
  detect_threshold np_log10 x y c1 persistence smooth_window = Ok i1 ->
  detect_threshold np_log10 x y c2 persistence smooth_window = Ok i2 ->
  i1 <= i2.
Proof.
  intros Hc Hs Hrun. unfold detect_threshold. rewrite Hs. cbn [bind].
  unfold threshold_of_slopes.
  pose proof (scan_weaker_finds_earlier _ _ persistence
                (above_cutoff_weaker s c1 c2 Hc) 0 0 0) as M.
  destruct (scan (above_cutoff s c2) 0 0 persistence) as [r2|] eqn:E2.
  - destruct (M r2 ltac:(lia) eq_refl) as (r1 & -> & Hr).
    intros [= <-] [= <-]. exact Hr.
  - destruct Hrun as [Hrun | ->]; [congruence|].
    intros H1 H2. rewrite H1 in H2. injection H2 as <-. lia.
Qed.

Lemma detect_threshold_monotone_on_runs_witness :
  (0.25 <=? 0.75)%float = true /\
  detect_threshold log10_pow10 spike_x spike_y 0.25 3 3 = Ok 0 /\
  detect_threshold log10_pow10 spike_x spike_y 0.75 3 3 = Ok 4 /\
  0 <= 4.
Proof.
  assert (H1 : detect_threshold log10_pow10 spike_x spike_y 0.25 3 3 = Ok 0)
    by (vm_compute; reflexivity).
  assert (H2 : detect_threshold log10_pow10 spike_x spike_y 0.75 3 3 = Ok 4)
    by (vm_compute; reflexivity).
  repeat split; try assumption.
  apply (detect_threshold_monotone_on_runs log10_pow10 spike_x spike_y
           0.25%float 0.75%float 3 3
           [5; 2.5; 0.5; 0.5; 1; 1; 1]%float 0 4).
  - reflexivity.
  - vm_compute. reflexivity.
  - left. vm_compute. discriminate.
  - exact H1.
  - exact H2.
Defined.

(** *** The persistence rule *)

Section ScanInvariant.

Variable F : Z -> bool.
Variable persistence : Z.
Hypothesis persistence_pos : 1 <= persistence.

Lemma scan_inv_flagged (i k : Z) :
  scan_inv F persistence i k -> F i = true -> k + 1 < persistence -> scan_inv F persistence (i + 1) (k + 1).
Proof.
  intros (Hk & Hik & Hrun & Hmax & Hwin) Hi Hlt.
  repeat split; try lia.
  - intros j Hj. destruct (Z.eq_dec j i) as [->|]; [exact Hi|apply Hrun; lia].
  - intros H. replace (i + 1 - (k + 1) - 1) with (i - k - 1) by lia.
    apply Hmax. lia.
  - intros r Hr Hle. destruct (Z_le_gt_dec (r + persistence) i) as [|Hgt].
    + apply Hwin; assumption.
    + exists (i - k - 1). split; [lia|]. apply Hmax. lia.
Qed.

Lemma scan_inv_unflagged (i k : Z) :
  scan_inv F persistence i k -> F i = false -> scan_inv F persistence (i + 1) 0.
Proof.
  intros (Hk & Hik & Hrun & Hmax & Hwin) Hi.
  repeat split; try lia.
  - intros H. replace (i + 1 - 0 - 1) with i by lia. exact Hi.
  - intros r Hr Hle. destruct (Z_le_gt_dec (r + persistence) i) as [|Hgt].
    + apply Hwin; assumption.
    + exists i. split; [lia|exact Hi].
Qed.

Lemma scan_inv_returns (i k : Z) :
  scan_inv F persistence i k -> F i = true -> persistence <= k + 1 ->
  let r := i - persistence + 1 in
  0 <= r /\ (forall j, r <= j < r + persistence -> F j = true) /\
  (forall r', 0 <= r' < r -> broken F persistence r').
Proof.
  intros (Hk & Hik & Hrun & Hmax & Hwin) Hi Hge r. subst r.
  repeat split; try lia.
  - intros j Hj. destruct (Z.eq_dec j i) as [->|]; [exact Hi|apply Hrun; lia].
  - intros r' Hr'. destruct (Z_le_gt_dec (r' + persistence) i) as [|Hgt].
    + apply Hwin; lia.
    + exists (i - k - 1). split; [lia|]. apply Hmax. lia.
Qed.

Lemma scan_spec_from (l : list bool) :
  forall i k,
    (forall j, (j < length l)%nat -> nth j l false = F (i + Z.of_nat j)) ->
    scan_inv F persistence i k ->
    match scan l i k persistence with
    | Some r =>
        0 <= r /\ r + persistence <= i + len l /\
        (forall j, r <= j < r + persistence -> F j = true) /\
        (forall r', 0 <= r' < r -> broken F persistence r')
    | None => forall r, 0 <= r -> r + persistence <= i + len l -> broken F persistence r
    end.
Proof.
  unfold len. induction l as [|b rest IH]; intros i k Hnth Hinv; cbn [scan length].
  - destruct Hinv as (_ & _ & _ & _ & Hwin).
    intros r Hr Hle. apply Hwin; [exact Hr|]. cbn in Hle. lia.
  - rewrite Nat2Z.inj_succ.
    assert (Hb : b = F i).
    { specialize (Hnth 0%nat ltac:(cbn; lia)). cbn in Hnth.
      rewrite Z.add_0_r in Hnth. exact Hnth. }
    assert (Hrest : forall j, (j < length rest)%nat ->
                      nth j rest false = F (i + 1 + Z.of_nat j)).
    { intros j Hj. specialize (Hnth (S j) ltac:(cbn; lia)). cbn [nth] in Hnth.
      rewrite Hnth. f_equal. lia. }
    destruct b.
    + destruct (Z.geb_spec (k + 1) persistence) as [Hge|Hlt].
      * destruct (scan_inv_returns i k Hinv (eq_sym Hb) Hge) as (H0 & Hrun & Hfirst).
        repeat split; [exact H0 | lia | exact Hrun | exact Hfirst].
      * specialize (IH (i + 1) (k + 1) Hrest
                      (scan_inv_flagged i k Hinv (eq_sym Hb) Hlt)).
        destruct (scan rest (i + 1) (k + 1) persistence) as [r|].
        -- destruct IH as (H0 & Hle & Hrun & Hfirst).
           repeat split; [exact H0 | lia | exact Hrun | exact Hfirst].
        -- intros r Hr Hle. apply IH; lia.
    + specialize (IH (i + 1) 0 Hrest (scan_inv_unflagged i k Hinv (eq_sym Hb))).
      destruct (scan rest (i + 1) 0 persistence) as [r|].
      * destruct IH as (H0 & Hle & Hrun & Hfirst).
        repeat split; [exact H0 | lia | exact Hrun | exact Hfirst].
      * intros r Hr Hle. apply IH; lia.
Qed.

End ScanInvariant.

Lemma flag_at_nth (above : list bool) (j : nat) :
  nth j above false = flag_at above (0 + Z.of_nat j).
Proof.
  unfold flag_at. cbn [Z.add].
  destruct (Z.leb_spec 0 (Z.of_nat j)); [|lia].
  rewrite Nat2Z.id. reflexivity.
Qed.

(** The scan from the start of the profile: it returns the start of the first
    persistent run, and falls out of the loop exactly when there is none. *)
Lemma scan_first_persistent_run (above : list bool) (persistence : Z) :
  1 <= persistence ->
  match scan above 0 0 persistence with
  | Some r => first_persistent_run above persistence r
  | None => forall r, ~ persistent_run_at above persistence r
  end.
Proof.
  intros Hp.
  pose proof (scan_spec_from (flag_at above) persistence Hp above 0 0
                (fun j _ => flag_at_nth above j)) as H.
  assert (Hinv : scan_inv (flag_at above) persistence 0 0).
  { repeat split; lia. }
  specialize (H Hinv).
  destruct (scan above 0 0 persistence) as [r|].
  - destruct H as (H0 & Hle & Hrun & Hfirst). split.
    + repeat split; [exact H0 | lia | exact Hrun].
    + intros r' Hlt (Hr0 & _ & Hrun').
      destruct (Hfirst r' ltac:(lia)) as (j & Hj & Hfalse).
      rewrite (Hrun' j Hj) in Hfalse. discriminate.
  - intros r (Hr0 & Hle & Hrun).
    destruct (H r Hr0 ltac:(lia)) as (j & Hj & Hfalse).
    rewrite (Hrun j Hj) in Hfalse. discriminate.
Qed.

Lemma first_persistent_run_unique (above : list bool) (persistence r r' : Z) :
  first_persistent_run above persistence r ->
  first_persistent_run above persistence r' -> r = r'.
Proof.
  intros [Hr Hmin] [Hr' Hmin'].
  destruct (Z.lt_trichotomy r r') as [H|[H|H]]; [|exact H|].
  - exfalso. exact (Hmin' r H Hr).
  - exfalso. exact (Hmin r' H Hr').
Qed.

(** C4: with [persistence >= 1], [detect_threshold] returns the first index
    from which [persistence] consecutive points of the smoothed slope profile
    are at or above the cutoff (the index at which the counter reaches
    [persistence], minus [persistence], plus 1); when no such run exists, so
    that only shorter runs occur, the scan returns nothing and the result is
    the fallback. *)
Theorem detect_threshold_first_persistent_run (np_log10 : float -> float)
    (x y : list float) (slope_cutoff : float) (persistence smooth_window : Z)
    (s : list float) :
  1 <= persistence ->
  compute_local_log_slope np_log10 x y smooth_window = Ok s ->
  (forall r, first_persistent_run (above_cutoff s slope_cutoff) persistence r ->
     detect_threshold np_log10 x y slope_cutoff persistence smooth_window = Ok r) /\
  ((forall r, ~ persistent_run_at (above_cutoff s slope_cutoff) persistence r) ->
     detect_threshold np_log10 x y slope_cutoff persistence smooth_window
     = match s with [] => Ok 0 | _ => np_argmax s end).
Proof.
  intros Hp Hs. unfold detect_threshold. rewrite Hs. cbn [bind].
  unfold threshold_of_slopes.
  pose proof (scan_first_persistent_run (above_cutoff s slope_cutoff) persistence Hp)
    as H.
  destruct (scan (above_cutoff s slope_cutoff) 0 0 persistence) as [r0|]; split.
  - intros r Hr. f_equal. exact (first_persistent_run_unique _ _ _ _ H Hr).
  - intros Hnone. exfalso. exact (Hnone r0 (proj1 H)).
  - intros r Hr. exfalso. exact (H r (proj1 Hr)).
  - intros _. reflexivity.
Qed.

Lemma detect_threshold_first_persistent_run_witness :
  first_persistent_run
    (above_cutoff [5; 2.5; 0.5; 0.5; 1; 1; 1]%float 0.75%float) 3 4 /\
  detect_threshold log10_pow10 spike_x spike_y 0.75 3 3 = Ok 4.
Proof.
  assert (Hrun : first_persistent_run
                   (above_cutoff [5; 2.5; 0.5; 0.5; 1; 1; 1]%float 0.75%float) 3 4).
  { split.
    - repeat split; [lia | cbn; lia |].
      intros j Hj.
      assert (Hc : j = 4 \/ j = 5 \/ j = 6) by lia.
      destruct Hc as [->|[->| ->]]; reflexivity.
    - intros r' Hlt (H0 & _ & Hflag).
      assert (Hc : r' = 0 \/ r' = 1 \/ r' = 2 \/ r' = 3) by lia.
      destruct Hc as [->|[->|[->| ->]]].
      + specialize (Hflag 2 ltac:(lia)). discriminate Hflag.
      + specialize (Hflag 2 ltac:(lia)). discriminate Hflag.
      + specialize (Hflag 2 ltac:(lia)). discriminate Hflag.
      + specialize (Hflag 3 ltac:(lia)). discriminate Hflag. }
  split; [exact Hrun|].
  refine (proj1 (detect_threshold_first_persistent_run log10_pow10 spike_x spike_y
                   0.75%float 3 3 [5; 2.5; 0.5; 0.5; 1; 1; 1]%float _ _) 4 Hrun).
  - lia.
  - vm_compute. reflexivity.
Defined.

(** ** Growth-law fits *)

Section FitProperties.

Variable np_log : float -> float.
Variable matmul : list (float * float) -> float * float -> list float.
Variable lstsq_solve : list (float * float) -> list float -> result (float * float).

Lemma lstsq_same_length (u : list float) (y : list float) :
  length u = length y ->
  lstsq lstsq_solve (design u) (map np_log y)
  = lstsq_solve (design u) (map np_log y).
Proof.
  intros H. unfold lstsq, design.
  rewrite !length_map, H, Nat.eqb_refl. reflexivity.
Qed.

(** The AIC expression of both fits. *)
Lemma aic_small_sample (n : Z) (rss : float) :
  n <= 2 ->
  (if n >? 2
   then (Float.of_int n * np_log (rss / Float.of_int n) + Float.of_int (2 * 2))%float
   else Float.inf) = Float.inf.
Proof.
  intros H. destruct (Z.gtb_spec n 2); [lia|reflexivity].
Qed.

Lemma aic_zero_rss (n : Z) (rss : float) :
  (forall v, (v =? 0)%float = true -> np_log v = Float.neg_inf) ->
  2 < n < 2 ^ 63 -> (rss =? 0)%float = true ->
  (if n >? 2
   then (Float.of_int n * np_log (rss / Float.of_int n) + Float.of_int (2 * 2))%float
   else Float.inf) = Float.neg_inf.
Proof.
  intros Hlog Hn Hrss. destruct (Z.gtb_spec n 2); [|lia].
  assert (Hpos : positive_sf (Prim2SF (Float.of_int n)))
    by (apply FloatInt.of_int_positive; lia).
  rewrite (Hlog _ (FloatSpecial.div_zero_positive _ _ Hrss Hpos)).
  unfold Float.neg_inf.
  rewrite (FloatSpecial.mul_positive_neg_inf _ Hpos). reflexivity.
Qed.

(** Each fit raises only what [np.linalg.lstsq] raises. *)
Lemma fit_exponential_raises_from_lstsq (x y : list float) (e : exn) :
  fit_exponential np_log matmul lstsq_solve x y = Raise e ->
  lstsq lstsq_solve (design x) (map np_log y) = Raise e.
Proof.
  unfold fit_exponential.
  destruct (lstsq lstsq_solve (design x) (map np_log y)); cbn [bind];
    [discriminate | intros [= ->]; reflexivity].
Qed.

Lemma fit_powerlaw_raises_from_lstsq (x y : list float) (e : exn) :
  fit_powerlaw np_log matmul lstsq_solve x y = Raise e ->
  lstsq lstsq_solve (design (map np_log x)) (map np_log y) = Raise e.
Proof.
  unfold fit_powerlaw.
  destruct (lstsq lstsq_solve (design (map np_log x)) (map np_log y));
    cbn [bind]; [discriminate | intros [= ->]; reflexivity].
Qed.

Lemma fit_exponential_small_sample (x y : list float) (be : float * float) :
  length x = length y -> len x <= 2 ->
  lstsq_solve (design x) (map np_log y) = Ok be ->
  exists fe, fit_exponential np_log matmul lstsq_solve x y = Ok fe /\
             aic fe = Float.inf /\ model fe = exp_model.
Proof.
  intros Hxy Hn He. unfold fit_exponential.
  rewrite (lstsq_same_length x y Hxy), He. cbn [bind].
  eexists. split; [reflexivity|]. cbn [aic model].
  rewrite (aic_small_sample _ _ Hn). split; reflexivity.
Qed.

Lemma fit_powerlaw_small_sample (x y : list float) (bp : float * float) :
  length x = length y -> len x <= 2 ->
  lstsq_solve (design (map np_log x)) (map np_log y) = Ok bp ->
  exists fp, fit_powerlaw np_log matmul lstsq_solve x y = Ok fp /\
             aic fp = Float.inf /\ model fp = pow_model.
Proof.
  intros Hxy Hn Hp. unfold fit_powerlaw.
  rewrite (lstsq_same_length (map np_log x) y), Hp
    by (rewrite length_map; exact Hxy).
  cbn [bind]. eexists. split; [reflexivity|]. cbn [aic model].
  rewrite (aic_small_sample _ _ Hn). split; reflexivity.
Qed.

End FitProperties.




(** C9: on a sample of more than 2 points that the solver's coefficients fit
    exactly in log space (the residual sum of squares is zero), each fit
    returns a result whose AIC is [-infinity]: the logarithm of zero is not
    guarded, and [np.log] gives [-infinity] there. *)
Theorem fits_exact_regression_aic_neg_infinite (np_log : float -> float)
    (matmul : list (float * float) -> float * float -> list float)
    (lstsq_solve : list (float * float) -> list float -> result (float * float))
    (x y : list float) :
  (forall v, (v =? 0)%float = true -> np_log v = Float.neg_inf) ->
  length x = length y -> 2 < len x < 2 ^ 63 ->
  (forall be,
     lstsq_solve (design x) (map np_log y) = Ok be ->
     (rss_of matmul (design x) (map np_log y) be =? 0)%float = true ->
     exists fe, fit_exponential np_log matmul lstsq_solve x y = Ok fe /\
                aic fe = Float.neg_inf) /\
  (forall bp,
     lstsq_solve (design (map np_log x)) (map np_log y) = Ok bp ->
     (rss_of matmul (design (map np_log x)) (map np_log y) bp =? 0)%float = true ->
     exists fp, fit_powerlaw np_log matmul lstsq_solve x y = Ok fp /\
                aic fp = Float.neg_inf).
Proof.
  intros Hlog Hxy Hn. split.
  - intros be He Hrss. unfold fit_exponential.
    rewrite (lstsq_same_length np_log lstsq_solve x y Hxy), He. cbn [bind].
    eexists. split; [reflexivity|]. cbn [aic].
    exact (aic_zero_rss np_log _ _ Hlog Hn Hrss).
  - intros bp Hp Hrss. unfold fit_powerlaw.
    rewrite (lstsq_same_length np_log lstsq_solve (map np_log x) y), Hp
      by (rewrite length_map; exact Hxy).
    cbn [bind]. eexists. split; [reflexivity|]. cbn [aic].
    exact (aic_zero_rss np_log _ _ Hlog Hn Hrss).
Qed.

Lemma ln_small_zero (v : float) :
  (v =? 0)%float = true -> ln_small v = Float.neg_inf.
Proof.
  intros H. unfold ln_small. rewrite H. reflexivity.
Qed.

Lemma fits_exact_regression_aic_neg_infinite_witness :
  (exists fe,
     fit_exponential ln_small matvec lstsq_zero_response [1; 2; 3]%float [1; 1; 1]%float
     = Ok fe /\ aic fe = Float.neg_inf) /\
  (exists fp,
     fit_powerlaw ln_small matvec lstsq_zero_response [1; 2; 3]%float [1; 1; 1]%float
     = Ok fp /\ aic fp = Float.neg_inf).
Proof.
  destruct (fits_exact_regression_aic_neg_infinite ln_small matvec lstsq_zero_response
              [1; 2; 3]%float [1; 1; 1]%float ln_small_zero eq_refl)
    as [He Hp].
  - cbn. lia.
  - split.
    + apply (He (0, 0)%float); vm_compute; reflexivity.
    + apply (Hp (0, 0)%float); vm_compute; reflexivity.
Defined.

(** ** Reductions *)

Lemma fold_left_add_float_sum (a l : list float) (s : float) :
  float_sum l s -> float_sum (l ++ a) (fold_left PrimFloat.add a s).
Proof.
  revert l s. induction a as [|v a IH]; intros l s H; cbn [fold_left].
  - rewrite app_nil_r. exact H.
  - replace (l ++ v :: a) with ((l ++ [v]) ++ a)
      by (rewrite <- app_assoc; reflexivity).
    apply IH. apply float_sum_add; [exact H | apply float_sum_one].
Qed.

Lemma float_sum_singletons (l : list float) :
  Forall2 float_sum (map (fun v => [v]) l) l.
Proof.
  induction l as [|v l IH]; cbn [map]; constructor;
    [apply float_sum_one | exact IH].
Qed.

Lemma concat_singletons (l : list float) :
  concat (map (fun v => [v]) l) = l.
Proof.
  induction l as [|v l IH]; cbn [map concat app]; [reflexivity|].
  rewrite IH. reflexivity.
Qed.

(** One turn of the unrolled loop: every partial sum takes one element. *)
Lemma add_lanes_float_sum (Ls : list (list float)) (r : list float) :
  Forall2 float_sum Ls r ->
  forall block, length block = length r ->
    Forall2 float_sum (map (fun p => fst p ++ [snd p]) (combine Ls block))
            (add_lanes r block) /\
    Permutation (concat (map (fun p => fst p ++ [snd p]) (combine Ls block)))
                (concat Ls ++ block).
Proof.
  unfold add_lanes.
  induction 1 as [|L s Ls r HL HLs IH]; intros block Hlen.
  - destruct block; [|discriminate]. split; [constructor|constructor].
  - destruct block as [|b block]; [discriminate|].
    cbn [length] in Hlen. injection Hlen as Hlen.
    destruct (IH block Hlen) as [IHs IHp].
    cbn [combine map fst snd concat]. split.
    + constructor; [|exact IHs].
      apply float_sum_add; [exact HL | apply float_sum_one].
    + rewrite <- !app_assoc. apply Permutation_app_head.
      cbn [app]. apply Permutation_cons_app. exact IHp.
Qed.

Lemma sum_lanes_float_sum (blocks : nat) :
  forall (Ls : list (list float)) (r a r' rest : list float),
    Forall2 float_sum Ls r -> length r = 8%nat ->
    (8 * blocks <= length a)%nat ->
    sum_lanes blocks r a = (r', rest) ->
    exists Ls',
      Forall2 float_sum Ls' r' /\ length r' = 8%nat /\
      Permutation (concat Ls' ++ rest) (concat Ls ++ a).
Proof.
  induction blocks as [|blocks IH]; intros Ls r a r' rest HLs Hr Ha;
    cbn [sum_lanes].
  - intros [= <- <-]. exists Ls. repeat split; [exact HLs | exact Hr |].
    apply Permutation_refl.
  - intros E.
    assert (Hblock : length (firstn 8 a) = length r)
      by (rewrite length_firstn, Hr; lia).
    destruct (add_lanes_float_sum Ls r HLs (firstn 8 a) Hblock) as [Hs Hp].
    assert (Hr2 : length (add_lanes r (firstn 8 a)) = 8%nat).
    { unfold add_lanes. rewrite length_map, length_combine, Hblock, Hr.
      reflexivity. }
    assert (Ha2 : (8 * blocks <= length (skipn 8 a))%nat)
      by (rewrite length_skipn; lia).
    destruct (IH _ _ _ _ _ Hs Hr2 Ha2 E) as (Ls' & HLs' & Hr' & Hp').
    exists Ls'. repeat split; [exact HLs' | exact Hr' |].
    rewrite Hp'. rewrite (Permutation_app_tail _ Hp).
    rewrite <- app_assoc, firstn_skipn. apply Permutation_refl.
Qed.

Lemma sum_unrolled_float_sum (a : list float) :
  (8 <= length a)%nat -> float_sum a (sum_unrolled a).
Proof.
  intros Hn. unfold sum_unrolled.
  destruct (sum_lanes (Nat.div (length a) 8 - 1) (firstn 8 a) (skipn 8 a))
    as [r rest] eqn:E.
  assert (H8 : length (firstn 8 a) = 8%nat) by (rewrite length_firstn; lia).
  assert (Hrest : (8 * (Nat.div (length a) 8 - 1) <= length (skipn 8 a))%nat).
  { rewrite length_skipn. pose proof (Nat.Div0.mul_div_le (length a) 8). lia. }
  destruct (sum_lanes_float_sum _ _ _ _ _ _
              (float_sum_singletons (firstn 8 a)) H8 Hrest E)
    as (Ls & HLs & Hr & Hp).
  - rewrite concat_singletons, firstn_skipn in Hp.
    apply (float_sum_perm _ _ _ Hp).
    apply fold_left_add_float_sum.
    destruct r as [|r0 [|r1 [|r2 [|r3 [|r4 [|r5 [|r6 [|r7 [|r8 r]]]]]]]]];
      try discriminate Hr.
    inversion HLs as [|L0 ? Ls0 ? H0 HLs0]; subst.
    inversion HLs0 as [|L1 ? Ls1 ? H1 HLs1]; subst.
    inversion HLs1 as [|L2 ? Ls2 ? H2 HLs2]; subst.
    inversion HLs2 as [|L3 ? Ls3 ? H3 HLs3]; subst.
    inversion HLs3 as [|L4 ? Ls4 ? H4 HLs4]; subst.
    inversion HLs4 as [|L5 ? Ls5 ? H5 HLs5]; subst.
    inversion HLs5 as [|L6 ? Ls6 ? H6 HLs6]; subst.
    inversion HLs6 as [|L7 ? Ls7 ? H7 HLs7]; subst.
    inversion HLs7; subst.
    cbn [concat at_ nth]. rewrite app_nil_r.
    replace (L0 ++ L1 ++ L2 ++ L3 ++ L4 ++ L5 ++ L6 ++ L7)
      with (((L0 ++ L1) ++ (L2 ++ L3)) ++ ((L4 ++ L5) ++ (L6 ++ L7)))
      by (rewrite <- !app_assoc; reflexivity).
    repeat apply float_sum_add; assumption.
Qed.

(** [pairwise_sum] adds every element exactly once, whatever the fuel. *)
Lemma pairwise_sum_float_sum (fuel : nat) :
  forall a, float_sum a (pairwise_sum fuel a).
Proof.
  induction fuel as [|fuel IH]; intros a; cbn [pairwise_sum];
    destruct (Nat.ltb_spec (length a) 8) as [H8|H8];
    try exact (fold_left_add_float_sum a [] 0%float float_sum_nil);
    destruct (Nat.leb_spec (length a) 128) as [H128|H128];
    try exact (sum_unrolled_float_sum a H8).
  rewrite <- (firstn_skipn (Nat.div (length a) 2 - Nat.modulo (Nat.div (length a) 2) 8) a)
    at 1.
  apply float_sum_add; apply IH.
Qed.

(** The fuel is never used up: any two amounts of at least the length give
    the same sum. *)
Lemma pairwise_sum_fuel (fuel1 : nat) :
  forall fuel2 a,
    (length a <= fuel1)%nat -> (length a <= fuel2)%nat ->
    pairwise_sum fuel1 a = pairwise_sum fuel2 a.
Proof.
  induction fuel1 as [|fuel1 IH]; intros fuel2 a H1 H2.
  - destruct a; [|cbn [length] in H1; lia]. destruct fuel2; reflexivity.
  - destruct fuel2 as [|fuel2].
    + destruct a; [reflexivity|cbn [length] in H2; lia].
    + cbn [pairwise_sum].
      destruct (Nat.ltb_spec (length a) 8) as [H8|H8]; [reflexivity|].
      destruct (Nat.leb_spec (length a) 128) as [H128|H128]; [reflexivity|].
      set (n2 := (Nat.div (length a) 2 - Nat.modulo (Nat.div (length a) 2) 8)%nat).
      assert (Hn2 : (0 < n2 < length a)%nat).
      { unfold n2.
        pose proof (Nat.mod_upper_bound (Nat.div (length a) 2) 8).
        pose proof (Nat.Div0.mul_div_le (length a) 2).
        pose proof (Nat.mul_succ_div_gt (length a) 2). lia. }
      f_equal; apply IH; rewrite ?length_firstn, ?length_skipn; lia.
Qed.

Lemma np_sum_float_sum (a : list float) : float_sum a (np_sum a).
Proof.
  unfold np_sum.
  exact (float_sum_add [] a _ _ float_sum_nil (pairwise_sum_float_sum _ a)).
Qed.

(** Ten equal parameters: the partial sums of the unrolled loop give the mean
    [0.1] and no spread, where ten additions in a row would not. *)
Example np_sum_unrolled_sample :
  np_mean (repeat 0.1%float 10) = 0.1%float /\
  np_std_ddof1 (repeat 0.1%float 10) = 0%float /\
  (fold_left PrimFloat.add (repeat 0.1%float 10) 0 / 10)%float
  = 0.09999999999999999%float.
Proof.
  vm_compute. repeat split.
Qed.

(** ** Universality check *)

(** C7: the row holds the arithmetic mean, a floating-point sum of the
    parameters over their number, as soon as there is one parameter; the
    standard deviation is the square root of a sum of the squared deviations
    from that mean over [n - 1], and not-a-number below 2 parameters; the
    coefficient of variation is [std / mean], and not-a-number when the mean
    is zero or when the mean or the standard deviation is not-a-number.  The
    loop reports the row for every non-empty list. *)
Theorem universality_summary (params : list float) :
  let row := universality_stats params in
  universality params = (if len params =? 0 then None else Some row) /\
  (1 <= len params ->
   exists s,
     float_sum params s /\
     mean_param row = (s / Float.of_int (len params))%float) /\
  (len params < 2 ->
   std_param row = Float.nan /\ cov row = Float.nan) /\
  (2 <= len params ->
   exists s,
     float_sum
       (map (fun v => ((v - mean_param row) * (v - mean_param row))%float) params)
       s /\
     std_param row = PrimFloat.sqrt (s / Float.of_int (len params - 1))%float) /\
  ((mean_param row =? 0)%float = true -> cov row = Float.nan) /\
  (Float.isnan (mean_param row) = true \/ Float.isnan (std_param row) = true ->
   cov row = Float.nan) /\
  ((mean_param row =? 0)%float = false ->
   Float.isnan (mean_param row) = false ->
   Float.isnan (std_param row) = false ->
   cov row = (std_param row / mean_param row)%float).
Proof.
  unfold universality_stats. cbn [mean_param std_param cov].
  set (mu := if 0 <? len params then np_mean params else Float.nan).
  set (sigma := if 1 <? len params then np_std_ddof1 params else Float.nan).
  split; [|split; [|split; [|split; [|split; [|split]]]]].
  - destruct params as [|v rest]; [reflexivity|].
    unfold universality, universality_stats. fold mu sigma.
    destruct (Z.eqb_spec (len (v :: rest)) 0) as [E|_]; [|reflexivity].
    unfold len in E. cbn [length] in E. lia.
  - intros Hge. exists (np_sum params). split; [apply np_sum_float_sum|].
    subst mu. destruct (Z.ltb_spec 0 (len params)); [reflexivity|lia].
  - intros Hlt. subst sigma. destruct (Z.ltb_spec 1 (len params)); [lia|].
    split; [reflexivity|].
    change (Float.isnan Float.nan) with true.
    rewrite andb_false_r. reflexivity.
  - intros Hge.
    assert (Hmu : mu = np_mean params)
      by (subst mu; destruct (Z.ltb_spec 0 (len params)); [reflexivity|lia]).
    exists (np_sum (np_square (np_sub_scalar params mu))). split.
    + unfold np_square, np_sub_scalar. rewrite map_map.
      apply np_sum_float_sum.
    + subst sigma. destruct (Z.ltb_spec 1 (len params)); [|lia].
      unfold np_std_ddof1. rewrite <- Hmu, Z.max_l by lia. reflexivity.
  - intros Hz. unfold Float.truthy. rewrite Hz. reflexivity.
  - intros [Hn|Hn]; rewrite Hn; cbn [negb];
      rewrite ?andb_false_r; reflexivity.
  - intros Hz Hm Hs. unfold Float.truthy. rewrite Hz, Hm, Hs. reflexivity.
Qed.

(** The summary of [0.5; 0.52; 0.48; 0.51]: mean 0.5025, standard deviation
    0.0171 and coefficient of variation 0.034, to the digits shown. *)
Example universality_four_cities :
  exists row,
    universality four_cities = Some row /\
    (0.50249 <? mean_param row)%float = true /\
    (mean_param row <? 0.50251)%float = true /\
    (0.01707 <? std_param row)%float = true /\
    (std_param row <? 0.01709)%float = true /\
    (0.0339 <? cov row)%float = true /\
    (cov row <? 0.0341)%float = true.
Proof.
  eexists. split; [reflexivity|]. vm_compute. repeat split.
Qed.

(** A single parameter: the mean is reported, the other two statistics are
    not-a-number. *)
Example universality_single_city :
  universality [0.5%float] = Some (mkUniversality 0.5 Float.nan Float.nan).
Proof.
  vm_compute. reflexivity.
Qed.

(** ** A tie in the pipeline *)

Lemma py_index_in_range (a : list float) (i : Z) :
  0 <= i <= len a - 1 -> exists v, py_index a i = Ok v.
Proof.
  intros H. unfold py_index.
  destruct (Z.ltb_spec i 0); [lia|].
  destruct (Z.leb_spec 0 i); [|lia].
  destruct (Z.ltb_spec i (len a)); [|lia].
  eexists. reflexivity.
Qed.

Lemma py_slice_from_length (a : list float) (i : Z) :
  0 <= i -> length (py_slice_from a i) = (length a - Z.to_nat i)%nat.
Proof.
  intros H. unfold py_slice_from.
  destruct (Z.ltb_spec i 0); [lia|]. apply length_skipn.
Qed.

(** On a curve of two points the fitted slice has one or two points, both
    AIC values are [+infinity], and the row names the power-law model. *)
Lemma analyze_city_method_two_points_selects_powerlaw
    (np_log10 np_log : float -> float)
    (matmul : list (float * float) -> float * float -> list float)
    (lstsq_solve : list (float * float) -> list float -> result (float * float))
    (x y : list float) (slope_cutoff : float) (persistence smooth_window : Z) :
  length x = length y -> length x = 2%nat -> 1 <= persistence ->
  (forall X b, length X = length b -> exists beta, lstsq_solve X b = Ok beta) ->
  exists row,
    analyze_city_method np_log10 np_log matmul lstsq_solve x y slope_cutoff
      persistence smooth_window = Ok row /\
    aic_exp row = Float.inf /\ aic_pow row = Float.inf /\
    model_selected row = pow_model.
Proof.
  intros Hxy Hx Hp Hsolve. unfold analyze_city_method.
  destruct (detect_threshold_returns_index np_log10 x y slope_cutoff
              persistence smooth_window Hxy ltac:(lia) Hp) as (i & -> & Hi).
  cbn [bind].
  destruct (py_index_in_range x i Hi) as [xv ->].
  destruct (py_index_in_range y i) as [yv ->];
    [unfold len in *; lia|].
  cbn [bind].
  assert (Hlen : length (py_slice_from x i) = length (py_slice_from y i))
    by (rewrite !py_slice_from_length by lia; lia).
  assert (Hsmall : len (py_slice_from x i) <= 2)
    by (unfold len; rewrite py_slice_from_length by lia; lia).
  destruct (Hsolve (design (py_slice_from x i)) (map np_log (py_slice_from y i)))
    as [be He]; [unfold design; rewrite !length_map; exact Hlen|].
  destruct (Hsolve (design (map np_log (py_slice_from x i)))
              (map np_log (py_slice_from y i)))
    as [bp Hbp]; [unfold design; rewrite !length_map; exact Hlen|].
  destruct (fit_exponential_small_sample np_log matmul lstsq_solve _ _ be Hlen Hsmall He)
    as (fe & -> & Ae & _).
  destruct (fit_powerlaw_small_sample np_log matmul lstsq_solve _ _ bp Hlen Hsmall Hbp)
    as (fp & -> & Ap & Mp).
  cbn [bind]. eexists. split; [reflexivity|].
  cbn [aic_exp aic_pow model_selected].
  repeat split; try assumption.
  unfold select_best. rewrite Ae, Ap.
  change (Float.inf <? Float.inf)%float with false. exact Mp.
Qed.

(** * Properties of the input side and of the other scripts *)

(** ** More on binary64 values *)

Module FloatFacts.

Lemma key_compare_refl (k : Z * Z * Z) : key_compare k k = Eq.
Proof.
  destruct k as [[a b] c]. unfold key_compare. rewrite !Z.compare_refl. reflexivity.
Qed.

Lemma isnan_SF (v : float) : Float.isnan v = negb (ordered (Prim2SF v)).
Proof.
  unfold Float.isnan, is_nan. rewrite eqb_spec. unfold SFeqb.
  rewrite FloatOrder.SFcompare_key.
  destruct (ordered (Prim2SF v)); cbn; [rewrite key_compare_refl|]; reflexivity.
Qed.

(** There is one not-a-number. *)
Lemma isnan_true_eq (v : float) : Float.isnan v = true -> v = Float.nan.
Proof.
  rewrite isnan_SF. intros H. apply Prim2SF_inj.
  change (Prim2SF Float.nan) with S754_nan.
  destruct (Prim2SF v); cbn in H; try discriminate. reflexivity.
Qed.

Lemma ltb_not_nan (a b : float) :
  (a <? b)%float = true -> Float.isnan a = false /\ Float.isnan b = false.
Proof.
  rewrite ltb_spec, !isnan_SF. unfold SFltb. rewrite FloatOrder.SFcompare_key.
  destruct (ordered (Prim2SF a)), (ordered (Prim2SF b)); cbn;
    try discriminate. auto.
Qed.

Lemma leb_not_nan (a b : float) :
  (a <=? b)%float = true -> Float.isnan a = false /\ Float.isnan b = false.
Proof.
  rewrite leb_spec, !isnan_SF. unfold SFleb. rewrite FloatOrder.SFcompare_key.
  destruct (ordered (Prim2SF a)), (ordered (Prim2SF b)); cbn;
    try discriminate. auto.
Qed.

(** Two values that are not not-a-number are comparable. *)
Lemma leb_total (a b : float) :
  Float.isnan a = false -> Float.isnan b = false ->
  (a <=? b)%float = false -> (b <? a)%float = true.
Proof.
  rewrite leb_spec, ltb_spec, !isnan_SF. unfold SFleb, SFltb.
  rewrite !FloatOrder.SFcompare_key.
  rewrite (FloatOrder.key_compare_antisym (key (Prim2SF a)) (key (Prim2SF b))).
  destruct (ordered (Prim2SF a)), (ordered (Prim2SF b)); cbn; try discriminate.
  intros _ _. destruct (key_compare (key (Prim2SF a)) (key (Prim2SF b)));
    cbn; congruence.
Qed.

End FloatFacts.

Module FloatRound.

Lemma shr_fexp_nonneg (m e : Z) (l : location) :
  0 <= m -> 0 <= shr_m (fst (shr_fexp prec emax m e l)).
Proof.
  intros Hm. unfold shr_fexp, shr.
  destruct (SpecFloat.fexp prec emax (Zdigits2 m + e) - e) as [|q|q];
    cbn [fst]; rewrite ?FloatInt.shr_record_of_loc_m; try exact Hm.
  rewrite FloatInt.shr_iter_shiftr by (rewrite FloatInt.shr_record_of_loc_m; exact Hm).
  rewrite FloatInt.shr_record_of_loc_m. apply Z.shiftr_nonneg, Hm.
Qed.

Lemma round_nearest_even_nonneg (m : Z) (l : location) :
  0 <= m -> 0 <= round_nearest_even m l.
Proof. destruct l as [|[| |]]; cbn; try destruct (Z.even m); lia. Qed.

(** Rounding a non-negative mantissa never gives not-a-number. *)
Lemma binary_round_aux_ordered (sx : bool) (m e : Z) (l : location) :
  0 <= m -> ordered (binary_round_aux prec emax sx m e l) = true.
Proof.
  intros Hm. unfold binary_round_aux.
  pose proof (shr_fexp_nonneg m e l Hm) as H1.
  destruct (shr_fexp prec emax m e l) as [mrs' e']. cbn [fst] in H1.
  pose proof (round_nearest_even_nonneg _ (loc_of_shr_record mrs') H1) as H2.
  pose proof (shr_fexp_nonneg _ e' loc_Exact H2) as H3.
  destruct (shr_fexp prec emax _ e' loc_Exact) as [mrs'' e'']. cbn [fst] in H3.
  destruct (shr_m mrs''); try lia; [reflexivity|].
  destruct (e'' <=? emax - prec); reflexivity.
Qed.


Lemma mul_two_not_nan (v : float) :
  Float.isnan v = false -> Float.isnan (v * 2)%float = false.
Proof.
  rewrite !FloatFacts.isnan_SF, mul_spec. unfold SF64mul.
  change (Prim2SF 2%float) with (S754_finite false 4503599627370496 (-51)).
  destruct (Prim2SF v) as [s|s| |s m e]; cbn [SFmul ordered negb];
    try reflexivity; try discriminate.
  intros _. rewrite binary_round_aux_ordered by lia. reflexivity.
Qed.

End FloatRound.

(** ** Reading a summary sheet *)

Lemma Permutation_filter_same {A : Type} (f : A -> bool) (l l' : list A) :
  Permutation l l' -> Permutation (filter f l) (filter f l').
Proof.
  induction 1 as [|a l l' _ IH|a b l|l l' l'' _ IH1 _ IH2]; cbn.
  - constructor.
  - destruct (f a); [constructor|]; exact IH.
  - destruct (f a), (f b); try reflexivity. constructor.
  - etransitivity; eassumption.
Qed.

Lemma boolean_index_map {A : Type} (f : A -> float) (g : A -> bool) (l : list A) :
  boolean_index (map f l) (map g l) = map f (filter g l).
Proof.
  induction l as [|a l IH]; cbn; [reflexivity|].
  destruct (g a); cbn; rewrite IH; reflexivity.
Qed.

Lemma combine_map_same {A B C : Type} (f : A -> B) (g : A -> C) (l : list A) :
  combine (map f l) (map g l) = map (fun a => (f a, g a)) l.
Proof.
  induction l as [|a l IH]; cbn; [reflexivity|]. rewrite IH. reflexivity.
Qed.

Lemma insert_row_perm (r : float * float) (l : list (float * float)) :
  Permutation (insert_row r l) (r :: l).
Proof.
  induction l as [|r' rest IH]; cbn; [reflexivity|].
  destruct (fst r <=? fst r')%float; [reflexivity|].
  rewrite IH. constructor.
Qed.

Lemma sort_rows_perm (l : list (float * float)) : Permutation (sort_rows l) l.
Proof.
  induction l as [|r l IH]; cbn; [constructor|].
  rewrite insert_row_perm. constructor. exact IH.
Qed.

(** X1: [read_summary_series] returns exactly when the sheet has the value
    column and one of the two mean columns, and the value column is not the
    mean column that was detected ([mean_delay_s] before [mean_delta_s]);
    it raises [TypeError] exactly when the value column is that mean column;
    and it stops the program with [SystemExit] exactly when the value column
    or both mean columns are missing. *)
Theorem read_summary_series_returns_iff
    (sort_values : list (float * float) -> list (float * float))
    (df : frame) (value_column : string) :
  let delay := has_column df "mean_delay_s" in
  let delta := has_column df "mean_delta_s" in
  ((exists x y, read_summary_series sort_values df value_column = Returned (x, y)) <->
   has_column df value_column = true /\
   (delay = true /\ value_column <> "mean_delay_s"%string \/
    delay = false /\ delta = true /\ value_column <> "mean_delta_s"%string)) /\
  (read_summary_series sort_values df value_column = Raised TypeError <->
   delay = true /\ value_column = "mean_delay_s"%string \/
   delay = false /\ delta = true /\ value_column = "mean_delta_s"%string) /\
  (read_summary_series sort_values df value_column = Raised SystemExit <->
   has_column df value_column = false \/ delay = false /\ delta = false).
Proof.
  cbv zeta. unfold read_summary_series, _detect_mean_column.
  destruct (has_column df value_column) eqn:Hv; cbn [negb];
    [destruct (has_column df "mean_delay_s") eqn:Hd;
     [destruct (String.eqb_spec value_column "mean_delay_s") as [E|E]
     |destruct (has_column df "mean_delta_s") eqn:Hl;
      [destruct (String.eqb_spec value_column "mean_delta_s") as [E|E]|]]|];
    (split; [|split]); split; intros H;
    repeat match goal with
           | H : exists _, _ |- _ => destruct H
           | H : _ /\ _ |- _ => destruct H
           | H : _ \/ _ |- _ => destruct H
           end;
    try discriminate; try contradiction; try reflexivity;
    try (do 2 eexists; reflexivity);
    try (subst value_column; congruence);
    tauto.
Qed.

(** A sheet read with its mean column as value column. *)
Example read_summary_series_type_error :
  read_summary_series sort_rows sheet "mean_delta_s" = Raised TypeError.
Proof.
  vm_compute. reflexivity.
Qed.

(** X2: the two series [read_summary_series] returns have one length, every
    delay is strictly positive, no load is not-a-number, and together they
    are, up to the order of the sort, the rows of the sheet with two numeric
    cells and a positive delay, the load being twice the value.  The mean
    column is [mean_delay_s] when the sheet has it. *)
Theorem read_summary_series_positive_aligned
    (sort_values : list (float * float) -> list (float * float))
    (df : frame) (value_column : string) (x y : list float) :
  (forall l, Permutation (sort_values l) l) ->
  read_summary_series sort_values df value_column = Returned (x, y) ->
  length x = length y /\
  Forall (fun v => (0 <? v)%float = true) y /\
  Forall (fun v => Float.isnan v = false) x /\
  exists mean_column,
    _detect_mean_column df = Returned mean_column /\
    (has_column df "mean_delay_s" = true -> mean_column = "mean_delay_s"%string) /\
    Permutation (combine x y) (kept_rows df value_column mean_column).
Proof.
  intros Hperm. unfold read_summary_series.
  destruct (negb (has_column df value_column)); [discriminate|].
  destruct (_detect_mean_column df) as [mean_column|e] eqn:Hmean; [|discriminate].
  destruct (String.eqb value_column mean_column); [discriminate|].
  set (data := sort_values (dropna (combine (column df value_column)
                                            (column df mean_column)))).
  rewrite (map_map snd (fun y => Float.gtb y 0) data).
  rewrite (boolean_index_map (fun r => (fst r * 2)%float)
             (fun r => Float.gtb (snd r) 0) data).
  rewrite (boolean_index_map snd (fun r => Float.gtb (snd r) 0) data).
  intros [= <- <-].
  assert (Hdata : Forall (fun r => Float.isnan (fst r) = false) data).
  { apply Forall_forall. intros r Hr.
    apply (Permutation_in _ (Hperm _)) in Hr.
    apply filter_In in Hr. destruct Hr as [_ Hr].
    apply andb_true_iff in Hr. destruct Hr as [Hr _].
    apply negb_true_iff in Hr. exact Hr. }
  repeat split.
  - rewrite !length_map. reflexivity.
  - apply Forall_forall. intros v Hv. apply in_map_iff in Hv.
    destruct Hv as (r & <- & Hr). apply filter_In in Hr. exact (proj2 Hr).
  - apply Forall_forall. intros v Hv. apply in_map_iff in Hv.
    destruct Hv as (r & <- & Hr). apply filter_In in Hr.
    apply FloatRound.mul_two_not_nan.
    exact (proj1 (Forall_forall _ _) Hdata r (proj1 Hr)).
  - exists mean_column. split; [reflexivity|]. split.
    + intros Hd. unfold _detect_mean_column in Hmean. rewrite Hd in Hmean.
      injection Hmean as <-. reflexivity.
    + rewrite combine_map_same. unfold kept_rows.
      apply Permutation_map, Permutation_filter_same, Hperm.
Qed.

Lemma read_summary_series_positive_aligned_witness :
  read_summary_series sort_rows sheet "value" = Returned ([600; 800], [12.5; 3])%float /\
  length [600; 800]%float = length [12.5; 3]%float /\
  Forall (fun v => (0 <? v)%float = true) [12.5; 3]%float /\
  Forall (fun v => Float.isnan v = false) [600; 800]%float /\
  exists mean_column,
    _detect_mean_column sheet = Returned mean_column /\
    (has_column sheet "mean_delay_s" = true -> mean_column = "mean_delay_s"%string) /\
    Permutation (combine [600; 800] [12.5; 3])%float
                (kept_rows sheet "value" mean_column).
Proof.
  split; [vm_compute; reflexivity|].
  apply (read_summary_series_positive_aligned sort_rows sheet "value").
  - exact sort_rows_perm.
  - vm_compute. reflexivity.
Defined.

Lemma where_positive_mask (ys : list float) :
  map (fun v => negb (Float.isnan v))
      (map (fun y => if Float.gtb y 0 then y else Float.nan) ys)
  = map (fun y => Float.gtb y 0) ys.
Proof.
  induction ys as [|y ys IH]; cbn [map]; [reflexivity|]. rewrite IH. f_equal.
  destruct (Float.gtb y 0) eqn:E; [|reflexivity].
  destruct (FloatFacts.ltb_not_nan _ _ E) as [_ ->]. reflexivity.
Qed.

Lemma boolean_index_where (ys : list float) :
  boolean_index (map (fun y => if Float.gtb y 0 then y else Float.nan) ys)
                (map (fun y => Float.gtb y 0) ys)
  = boolean_index ys (map (fun y => Float.gtb y 0) ys).
Proof.
  induction ys as [|y ys IH]; cbn [map boolean_index]; [reflexivity|].
  destruct (Float.gtb y 0); rewrite IH; reflexivity.
Qed.

(** X3: the series of [analysis.py]'s [read_summary_series] keep one length
    with a delay that is strictly positive or not-a-number, and removing the
    rows whose delay is not-a-number from both gives exactly what
    [analyze_critical_growth.py]'s [read_summary_series] returns on the
    same sheet. *)
Theorem analysis_read_summary_series_masks
    (sort_values : list (float * float) -> list (float * float))
    (df : frame) (value_column : string) (x y : list float) :
  Analysis.read_summary_series sort_values df value_column = Returned (x, y) ->
  length x = length y /\
  Forall (fun v => (0 <? v)%float = true \/ v = Float.nan) y /\
  let mask := map (fun v => negb (Float.isnan v)) y in
  read_summary_series sort_values df value_column
  = Returned (boolean_index x mask, boolean_index y mask).
Proof.
  unfold Analysis.read_summary_series, read_summary_series.
  destruct (negb (has_column df value_column)); [discriminate|].
  destruct (_detect_mean_column df) as [mean_column|e]; [|discriminate].
  destruct (String.eqb value_column mean_column); [discriminate|].
  set (data := sort_values (dropna (combine (column df value_column)
                                            (column df mean_column)))).
  intros [= <- <-]. repeat split.
  - rewrite !length_map. reflexivity.
  - apply Forall_forall. intros v Hv. apply in_map_iff in Hv.
    destruct Hv as (y & <- & _).
    destruct (Float.gtb y 0) eqn:E; [left; exact E | right; reflexivity].
  - cbv zeta. rewrite where_positive_mask, boolean_index_where. reflexivity.
Qed.

Lemma analysis_read_summary_series_masks_witness :
  Analysis.read_summary_series sort_rows sheet "value"
  = Returned ([200; 600; 800], [Float.nan; 12.5; 3])%float /\
  read_summary_series sort_rows sheet "value"
  = Returned ([600; 800], [12.5; 3])%float.
Proof.
  assert (H : Analysis.read_summary_series sort_rows sheet "value"
              = Returned ([200; 600; 800], [Float.nan; 12.5; 3])%float)
    by (vm_compute; reflexivity).
  split; [exact H|].
  destruct (analysis_read_summary_series_masks sort_rows sheet "value" _ _ H)
    as (_ & _ & E).
  rewrite E. vm_compute. reflexivity.
Defined.

(** ** Median smoothing *)

Lemma insert_sorted_In (x v : float) (l : list float) :
  In x (insert_sorted v l) <-> x = v \/ In x l.
Proof.
  induction l as [|w rest IH]; cbn.
  - intuition congruence.
  - destruct (v <=? w)%float; cbn; rewrite ?IH; intuition congruence.
Qed.

Lemma insert_sorted_length (v : float) (l : list float) :
  length (insert_sorted v l) = S (length l).
Proof.
  induction l as [|w rest IH]; cbn; [reflexivity|].
  destruct (v <=? w)%float; cbn; rewrite ?IH; reflexivity.
Qed.

Lemma sort_In (x : float) (l : list float) : In x (sort l) <-> In x l.
Proof.
  induction l as [|v l IH]; [reflexivity|].
  change (sort (v :: l)) with (insert_sorted v (sort l)).
  rewrite insert_sorted_In, IH. cbn. intuition congruence.
Qed.

Lemma sort_length (l : list float) : length (sort l) = length l.
Proof.
  induction l as [|v l IH]; [reflexivity|].
  change (sort (v :: l)) with (insert_sorted v (sort l)).
  rewrite insert_sorted_length, IH. reflexivity.
Qed.

Lemma slice_one (a : list float) (i : nat) :
  (i < length a)%nat -> slice a i 1 = [at_ a i].
Proof.
  unfold slice, at_. revert i.
  induction a as [|v a IH]; intros i Hi; [cbn [length] in Hi; lia|].
  destruct i as [|i]; [reflexivity|].
  cbn [skipn nth]. apply IH. cbn [length] in Hi. lia.
Qed.

(** The median of an odd number of values is the mean of a slice that holds
    one of them. *)
Lemma np_median_odd_mean (l : list float) :
  Nat.odd (length l) = true -> exists v, In v l /\ np_median l = np_mean [v].
Proof.
  intros Hodd. unfold np_median.
  destruct (existsb Float.isnan l) eqn:E.
  - apply existsb_exists in E. destruct E as (v & Hv & Hnan).
    exists v. split; [exact Hv|].
    rewrite (FloatFacts.isnan_true_eq v Hnan). vm_compute. reflexivity.
  - rewrite sort_length, Hodd.
    destruct (length l) as [|k] eqn:L; [discriminate|].
    assert (Hlt : (Nat.div (S k) 2 < length (sort l))%nat)
      by (rewrite sort_length, L; apply Nat.div_lt; lia).
    exists (at_ (sort l) (Nat.div (S k) 2)). split.
    + apply sort_In. unfold at_. apply nth_In. exact Hlt.
    + rewrite (slice_one _ _ Hlt). reflexivity.
Qed.

Lemma last_In_nonempty (l : list float) (d : float) :
  l <> [] -> In (last l d) l.
Proof.
  induction l as [|v [|w rest] IH]; intros H; [congruence | left; reflexivity |].
  right. apply IH. discriminate.
Qed.

Lemma np_pad_edge_In (a padded : list float) (pad : nat) :
  np_pad_edge a pad = Ok padded ->
  (forall v, In v padded -> In v a) /\
  length padded = (pad + length a + pad)%nat.
Proof.
  destruct a as [|first rest] eqn:Ea; cbn [np_pad_edge].
  - destruct pad; [|discriminate]. intros [= <-]. split; [tauto|reflexivity].
  - rewrite <- Ea. intros [= <-]. split.
    + intros v Hv. apply in_app_or in Hv. destruct Hv as [Hv|Hv].
      * apply repeat_spec in Hv. subst v a. left. reflexivity.
      * apply in_app_or in Hv. destruct Hv as [Hv|Hv]; [exact Hv|].
        apply repeat_spec in Hv. subst v.
        apply last_In_nonempty. subst a. discriminate.
    + rewrite !length_app, !repeat_length. lia.
Qed.

Lemma slice_In (a : list float) (i window : nat) (v : float) :
  In v (slice a i window) -> In v a.
Proof.
  unfold slice. intros H.
  rewrite <- (firstn_skipn i a). apply in_or_app. right.
  rewrite <- (firstn_skipn window (skipn i a)). apply in_or_app. left. exact H.
Qed.

Lemma slice_length (a : list float) (i window : nat) :
  (i + window <= length a)%nat -> length (slice a i window) = window.
Proof.
  intros H. unfold slice. rewrite length_firstn, length_skipn. lia.
Qed.

Lemma odd_window_pad (window : Z) :
  1 < window -> Z.odd window = true ->
  Z.to_nat window = (2 * Z.to_nat (window / 2) + 1)%nat /\
  Nat.odd (Z.to_nat window) = true.
Proof.
  intros Hw Hodd.
  assert (E : window = 2 * (window / 2) + 1).
  { rewrite (Z.div_mod window 2) at 1 by lia.
    rewrite Zmod_odd, Hodd. reflexivity. }
  assert (Hn : Z.to_nat window = (2 * Z.to_nat (window / 2) + 1)%nat).
  { rewrite E at 1. pose proof (Z.div_pos window 2). lia. }
  split; [exact Hn|].
  rewrite Hn, Nat.add_1_r, Nat.odd_succ. apply Nat.even_spec.
  exists (Z.to_nat (window / 2)). reflexivity.
Qed.

(** With an odd window every smoothed value is the median of a window that
    holds input values only. *)
Lemma rolling_median_odd_mean (a out : list float) (window : Z) (r : float) :
  1 < window -> Z.odd window = true -> rolling_median a window = Ok out ->
  In r out -> exists v, In v a /\ r = np_mean [v].
Proof.
  intros Hw Hodd. unfold rolling_median.
  destruct (Z.leb_spec window 1) as [Hle|_]; [lia|].
  destruct (np_pad_edge a (Z.to_nat (window / 2))) as [padded|e] eqn:Hpad;
    cbn [bind]; [|discriminate].
  intros [= <-] Hr. apply in_map_iff in Hr. destruct Hr as (i & <- & Hi).
  apply in_seq in Hi.
  destruct (np_pad_edge_In _ _ _ Hpad) as [Hin Hlen].
  destruct (odd_window_pad window Hw Hodd) as [Hn Hoddn].
  destruct (np_median_odd_mean (slice padded i (Z.to_nat window)))
    as (v & Hv & E).
  { rewrite slice_length; [exact Hoddn|]. lia. }
  exists v. split; [|exact E].
  apply Hin. exact (slice_In padded i (Z.to_nat window) v Hv).
Qed.

(** X4: with an odd window above 1, [rolling_median] never mixes two input
    values: every smoothed value is [np.mean] of a slice that holds one
    input value, the form in which [np.median] returns the middle value. *)
Theorem rolling_median_odd_values_from_input (a out : list float) (window : Z) :
  1 < window -> Z.odd window = true ->
  rolling_median a window = Ok out ->
  Forall (fun r => exists v, In v a /\ r = np_mean [v]) out.
Proof.
  intros Hw Hodd Hout. apply Forall_forall. intros r Hr.
  exact (rolling_median_odd_mean a out window r Hw Hodd Hout Hr).
Qed.

Lemma rolling_median_odd_values_from_input_witness :
  rolling_median [1; 5; 2; 8]%float 3 = Ok [1; 2; 5; 8]%float /\
  Forall (fun r => exists v, In v [1; 5; 2; 8]%float /\ r = np_mean [v])
         [1; 2; 5; 8]%float.
Proof.
  assert (H : rolling_median [1; 5; 2; 8]%float 3 = Ok [1; 2; 5; 8]%float)
    by (vm_compute; reflexivity).
  split; [exact H|].
  apply (rolling_median_odd_values_from_input _ _ 3);
    [lia | reflexivity | exact H].
Defined.

(** X5: with an odd window above 1, [rolling_median] turns a non-empty
    constant sequence into the constant sequence, of the same length, of
    [np.mean] of a slice that holds the constant alone, whatever the
    constant (infinite or not-a-number included). *)
Theorem rolling_median_odd_constant (c : float) (n : nat) (window : Z) :
  (0 < n)%nat -> 1 < window -> Z.odd window = true ->
  rolling_median (repeat c n) window = Ok (repeat (np_mean [c]) n).
Proof.
  intros Hn Hw Hodd.
  destruct (rolling_median_nonempty_ok (repeat c n) window) as (out & E & L).
  { destruct n; [lia|discriminate]. }
  rewrite E. f_equal. rewrite repeat_length in L. rewrite <- L.
  apply Forall_eq_repeat, Forall_forall. intros r Hr.
  destruct (rolling_median_odd_mean _ _ _ r Hw Hodd E Hr) as (v & Hv & ->).
  rewrite (repeat_spec n c v Hv). reflexivity.
Qed.

Lemma rolling_median_odd_constant_witness :
  rolling_median (repeat 1e308%float 4) 3
  = Ok (repeat (np_mean [1e308%float]) 4).
Proof.
  apply (rolling_median_odd_constant 1e308%float 4 3);
    [lia | lia | reflexivity].
Defined.

(** The mean of a single value is the value, but for the sign of zero: a
    sequence of negative zeros comes back as positive zeros. *)
Example rolling_median_negative_zero :
  np_mean [1e308%float] = 1e308%float /\
  np_mean [(-0)%float] = 0%float /\
  rolling_median (repeat (-0)%float 3) 3 = Ok (repeat 0%float 3).
Proof.
  vm_compute. repeat split.
Qed.

(** With an even window a constant sequence can change: the mean of the two
    middle values overflows. *)
Example rolling_median_even_constant_overflows :
  rolling_median (repeat 1e308%float 4) 2 = Ok (repeat Float.inf 4).
Proof.
  vm_compute. reflexivity.
Qed.

(** ** The slope profile and the fallback *)

Lemma np_gradient_inv (f g : list float) :
  np_gradient f = Ok g -> (2 <= length f)%nat /\ length g = length f.
Proof.
  unfold np_gradient. destruct (Nat.ltb_spec (length f) 2); [discriminate|].
  intros [= <-]. rewrite length_map, length_seq. split; [exact H|reflexivity].
Qed.

Lemma np_gradient_raises (f : list float) (e : exn) :
  np_gradient f = Raise e -> e = ValueError.
Proof.
  unfold np_gradient. destruct (length f <? 2)%nat; [|discriminate].
  intros [= <-]. reflexivity.
Qed.

Lemma rolling_median_raises (a : list float) (window : Z) (e : exn) :
  rolling_median a window = Raise e -> e = ValueError /\ a = [].
Proof.
  unfold rolling_median. destruct (window <=? 1); [discriminate|].
  destruct a as [|v a]; cbn.
  - destruct (Z.to_nat (window / 2)); cbn; [discriminate|].
    intros [= <-]. split; reflexivity.
  - discriminate.
Qed.

Lemma rolling_median_length (a out : list float) (window : Z) :
  rolling_median a window = Ok out -> length out = length a.
Proof.
  unfold rolling_median. destruct (window <=? 1); [intros [= <-]; reflexivity|].
  destruct (np_pad_edge a (Z.to_nat (window / 2))); cbn [bind]; [|discriminate].
  intros [= <-]. rewrite length_map, length_seq. reflexivity.
Qed.

Lemma np_divide_where_nonzero_inv (a b q : list float) :
  np_divide_where_nonzero a b = Ok q ->
  length a = length b /\ length q = length a.
Proof.
  unfold np_divide_where_nonzero.
  destruct (Nat.eqb_spec (length a) (length b)) as [E|E]; [|discriminate].
  intros [= <-]. rewrite length_map, length_combine. lia.
Qed.

Lemma compute_local_log_slope_inv (np_log10 : float -> float)
    (x y s : list float) (smooth_window : Z) :
  compute_local_log_slope np_log10 x y smooth_window = Ok s ->
  length x = length y /\ (2 <= length x)%nat /\ length s = length x.
Proof.
  unfold compute_local_log_slope.
  destruct (np_gradient (map np_log10 y)) as [dly|e] eqn:Ey; cbn [bind];
    [|discriminate].
  destruct (np_gradient (map np_log10 x)) as [dlx|e] eqn:Ex; cbn [bind];
    [|discriminate].
  apply np_gradient_inv in Ey, Ex. rewrite length_map in Ey, Ex.
  destruct (np_divide_where_nonzero dly dlx) as [slope|e] eqn:Ed; cbn [bind];
    [|discriminate].
  apply np_divide_where_nonzero_inv in Ed.
  intros Hs. apply rolling_median_length in Hs. lia.
Qed.

Lemma compute_local_log_slope_raises (np_log10 : float -> float)
    (x y : list float) (smooth_window : Z) (e : exn) :
  compute_local_log_slope np_log10 x y smooth_window = Raise e -> e = ValueError.
Proof.
  unfold compute_local_log_slope.
  destruct (np_gradient (map np_log10 y)) as [dly|e1] eqn:Ey; cbn [bind].
  2:{ intros [= <-]. exact (np_gradient_raises _ _ Ey). }
  destruct (np_gradient (map np_log10 x)) as [dlx|e1] eqn:Ex; cbn [bind].
  2:{ intros [= <-]. exact (np_gradient_raises _ _ Ex). }
  unfold np_divide_where_nonzero.
  destruct (length dly =? length dlx)%nat; cbn [bind].
  - intros H. exact (proj1 (rolling_median_raises _ _ _ H)).
  - intros [= <-]. reflexivity.
Qed.

(** X6: [compute_local_log_slope] returns exactly when the two arrays have
    one length of at least 2, and the profile then has that length; in every
    other case it raises [ValueError]. *)
Theorem compute_local_log_slope_returns_iff (np_log10 : float -> float)
    (x y : list float) (smooth_window : Z) :
  match compute_local_log_slope np_log10 x y smooth_window with
  | Ok s => length x = length y /\ (2 <= length x)%nat /\ length s = length x
  | Raise e => e = ValueError /\ (length x <> length y \/ (length x < 2)%nat)
  end.
Proof.
  destruct (compute_local_log_slope np_log10 x y smooth_window) as [s|e] eqn:E.
  - exact (compute_local_log_slope_inv _ _ _ _ _ E).
  - split; [exact (compute_local_log_slope_raises _ _ _ _ _ E)|].
    destruct (Nat.eq_dec (length x) (length y)) as [Hxy|Hxy]; [|left; exact Hxy].
    destruct (le_lt_dec 2 (length x)) as [Hx|Hx]; [|right; exact Hx].
    destruct (compute_local_log_slope_ok np_log10 x y smooth_window Hxy Hx)
      as (s & Hs & _).
    rewrite Hs in E. discriminate.
Qed.

Module FloatChain.

Lemma key_compare_le_lt (k1 k2 k3 : Z * Z * Z) :
  key_compare k1 k2 <> Gt -> key_compare k2 k3 = Lt -> key_compare k1 k3 = Lt.
Proof.
  destruct k1 as [[a1 b1] c1], k2 as [[a2 b2] c2], k3 as [[a3 b3] c3].
  unfold key_compare.
  destruct (Z.compare_spec a1 a2), (Z.compare_spec a2 a3), (Z.compare_spec a1 a3);
    try lia; try congruence;
    destruct (Z.compare_spec b1 b2), (Z.compare_spec b2 b3), (Z.compare_spec b1 b3);
    try lia; try congruence;
    destruct (Z.compare_spec c1 c2), (Z.compare_spec c2 c3), (Z.compare_spec c1 c3);
    try lia; congruence.
Qed.

Lemma leb_refl (a : float) : Float.isnan a = false -> (a <=? a)%float = true.
Proof.
  rewrite FloatFacts.isnan_SF, leb_spec. unfold SFleb.
  rewrite FloatOrder.SFcompare_key.
  destruct (ordered (Prim2SF a)); cbn; [|discriminate].
  rewrite FloatFacts.key_compare_refl. reflexivity.
Qed.

Lemma ltb_leb (a b : float) : (a <? b)%float = true -> (a <=? b)%float = true.
Proof.
  rewrite ltb_spec, leb_spec. unfold SFltb, SFleb.
  destruct (SFcompare (Prim2SF a) (Prim2SF b)) as [[| |]|]; congruence.
Qed.

Lemma leb_ltb_trans (a b c : float) :
  (a <=? b)%float = true -> (b <? c)%float = true -> (a <? c)%float = true.
Proof.
  rewrite leb_spec, !ltb_spec. unfold SFleb, SFltb.
  rewrite !FloatOrder.SFcompare_key.
  destruct (ordered (Prim2SF a)), (ordered (Prim2SF b)), (ordered (Prim2SF c));
    cbn; try discriminate.
  intros H1 H2.
  rewrite (key_compare_le_lt (key (Prim2SF a)) (key (Prim2SF b)) (key (Prim2SF c)));
    [reflexivity | | ].
  - destruct (key_compare (key (Prim2SF a)) (key (Prim2SF b))); congruence.
  - destruct (key_compare (key (Prim2SF b)) (key (Prim2SF c))); congruence.
Qed.

End FloatChain.

Lemma argmax_loop_first_maximum (V : Z -> float) (l : list float) :
  forall i mp max_ind,
    (forall j, (j < length l)%nat -> nth j l Float.nan = V (i + Z.of_nat j)) ->
    (forall j, 0 <= j < i + len l -> Float.isnan (V j) = false) ->
    argmax_inv V i mp max_ind ->
    let r := argmax_loop l i mp max_ind in
    argmax_inv V (i + len l) (V r) r.
Proof.
  unfold len. induction l as [|v rest IH]; intros i mp max_ind Hnth Hnan Hinv;
    cbn [argmax_loop length].
  - cbv zeta. destruct Hinv as (H1 & -> & H3 & H4).
    rewrite Z.add_0_r. repeat split; try lia; assumption.
  - cbn [length] in Hnan. rewrite Nat2Z.inj_succ in *.
    assert (Hv : v = V i).
    { specialize (Hnth 0%nat ltac:(cbn; lia)). cbn in Hnth.
      rewrite Z.add_0_r in Hnth. exact Hnth. }
    assert (Hrest : forall j, (j < length rest)%nat ->
                      nth j rest Float.nan = V (i + 1 + Z.of_nat j)).
    { intros j Hj. specialize (Hnth (S j) ltac:(cbn; lia)).
      cbn [nth] in Hnth. rewrite Hnth. f_equal. lia. }
    assert (Hvn : Float.isnan v = false) by (rewrite Hv; apply Hnan; destruct Hinv; lia).
    destruct Hinv as (H1 & Hmp & H3 & H4).
    replace (i + Z.succ (Z.of_nat (length rest)))
      with (i + 1 + Z.of_nat (length rest)) by lia.
    destruct (v <=? mp)%float eqn:E; cbn [negb].
    + apply IH; [exact Hrest | intros j Hj; apply Hnan; lia |].
      repeat split; try lia; try assumption.
      intros j Hj. destruct (Z.eq_dec j i) as [->|]; [rewrite <- Hv; exact E|].
      apply H3. lia.
    + rewrite Hvn.
      assert (Hlt : (mp <? v)%float = true).
      { apply FloatFacts.leb_total; try assumption.
        rewrite Hmp. apply Hnan. lia. }
      apply IH; [exact Hrest | intros j Hj; apply Hnan; lia |].
      repeat split; try lia; try assumption.
      * intros j Hj. destruct (Z.eq_dec j i) as [->|].
        -- rewrite <- Hv. apply FloatChain.leb_refl, Hvn.
        -- apply FloatChain.ltb_leb, (FloatChain.leb_ltb_trans _ mp);
             [apply H3; lia|exact Hlt].
      * intros j Hj. apply (FloatChain.leb_ltb_trans _ mp); [apply H3; lia|exact Hlt].
Qed.

Lemma at_cons_succ (v : float) (rest : list float) (j : nat) :
  nth j rest Float.nan = at_ (v :: rest) (Z.to_nat (1 + Z.of_nat j)).
Proof.
  replace (Z.to_nat (1 + Z.of_nat j)) with (S j) by lia. reflexivity.
Qed.

(** X7: when no persistent run exists and the smoothed slope profile holds no
    not-a-number, [detect_threshold] returns the position of the largest
    slope, the first one where several are equal. *)
Theorem detect_threshold_fallback_first_maximum (np_log10 : float -> float)
    (x y : list float) (slope_cutoff : float) (persistence smooth_window : Z)
    (s : list float) :
  1 <= persistence ->
  compute_local_log_slope np_log10 x y smooth_window = Ok s ->
  (forall r, ~ persistent_run_at (above_cutoff s slope_cutoff) persistence r) ->
  Forall (fun v => Float.isnan v = false) s ->
  exists r,
    detect_threshold np_log10 x y slope_cutoff persistence smooth_window = Ok r /\
    0 <= r < len s /\
    (forall j, 0 <= j < len s ->
       (at_ s (Z.to_nat j) <=? at_ s (Z.to_nat r))%float = true) /\
    (forall j, 0 <= j < r ->
       (at_ s (Z.to_nat j) <? at_ s (Z.to_nat r))%float = true).
Proof.
  intros Hp Hs Hnone Hnan. unfold detect_threshold. rewrite Hs. cbn [bind].
  unfold threshold_of_slopes.
  pose proof (scan_first_persistent_run (above_cutoff s slope_cutoff) persistence Hp)
    as Hscan.
  destruct (scan (above_cutoff s slope_cutoff) 0 0 persistence) as [r0|].
  { exfalso. exact (Hnone r0 (proj1 Hscan)). }
  apply compute_local_log_slope_inv in Hs. destruct Hs as (_ & Hlen & Ls).
  destruct s as [|v rest]; [cbn in Ls; lia|]. cbn [np_argmax].
  assert (Hall : forall j, 0 <= j < 1 + len rest ->
                   Float.isnan (at_ (v :: rest) (Z.to_nat j)) = false).
  { intros j Hj. apply (proj1 (Forall_forall _ _) Hnan). apply nth_In.
    unfold len in Hj. cbn [length]. lia. }
  assert (Hv : Float.isnan v = false) by (apply (Hall 0); unfold len; lia).
  rewrite Hv.
  pose proof (argmax_loop_first_maximum (fun j => at_ (v :: rest) (Z.to_nat j))
                rest 1 v 0 (fun j _ => at_cons_succ v rest j) Hall) as H.
  cbv zeta in H.
  destruct H as (Hr & _ & Hmax & Hfirst).
  { repeat split; try lia.
    intros j Hj. replace j with 0 by lia. apply FloatChain.leb_refl, Hv. }
  eexists. split; [reflexivity|].
  replace (len (v :: rest)) with (1 + len rest)
    by (unfold len; cbn [length]; lia).
  repeat split; try lia; assumption.
Qed.

Lemma detect_threshold_fallback_first_maximum_witness :
  exists r,
    detect_threshold log10_pow10 spike_x spike_y 10 3 3 = Ok r /\
    0 <= r < len [5; 2.5; 0.5; 0.5; 1; 1; 1]%float /\
    (forall j, 0 <= j < len [5; 2.5; 0.5; 0.5; 1; 1; 1]%float ->
       (at_ [5; 2.5; 0.5; 0.5; 1; 1; 1] (Z.to_nat j)
        <=? at_ [5; 2.5; 0.5; 0.5; 1; 1; 1] (Z.to_nat r))%float = true) /\
    (forall j, 0 <= j < r ->
       (at_ [5; 2.5; 0.5; 0.5; 1; 1; 1] (Z.to_nat j)
        <? at_ [5; 2.5; 0.5; 0.5; 1; 1; 1] (Z.to_nat r))%float = true).
Proof.
  apply (detect_threshold_fallback_first_maximum log10_pow10 spike_x spike_y
           10%float 3 3 [5; 2.5; 0.5; 0.5; 1; 1; 1]%float).
  - lia.
  - vm_compute. reflexivity.
  - intros r (H0 & Hle & Hflag). unfold len in Hle. cbn in Hle.
    specialize (Hflag r ltac:(lia)).
    assert (Hc : r = 0 \/ r = 1 \/ r = 2 \/ r = 3 \/ r = 4) by lia.
    destruct Hc as [->|[->|[->|[->| ->]]]]; discriminate Hflag.
  - repeat constructor.
Defined.

(** ** The row of one city *)

Lemma fit_exponential_inv (np_log : float -> float)
    (matmul : list (float * float) -> float * float -> list float)
    (lstsq_solve : list (float * float) -> list float -> result (float * float))
    (x y : list float) (fe : FitResult) :
  fit_exponential np_log matmul lstsq_solve x y = Ok fe ->
  model fe = exp_model /\ n fe = len x.
Proof.
  unfold fit_exponential.
  destruct (lstsq lstsq_solve (design x) (map np_log y)); cbn [bind];
    [|discriminate].
  intros [= <-]. split; reflexivity.
Qed.

Lemma fit_powerlaw_inv (np_log : float -> float)
    (matmul : list (float * float) -> float * float -> list float)
    (lstsq_solve : list (float * float) -> list float -> result (float * float))
    (x y : list float) (fp : FitResult) :
  fit_powerlaw np_log matmul lstsq_solve x y = Ok fp ->
  model fp = pow_model /\ n fp = len x.
Proof.
  unfold fit_powerlaw.
  destruct (lstsq lstsq_solve (design (map np_log x)) (map np_log y));
    cbn [bind]; [|discriminate].
  intros [= <-]. split; reflexivity.
Qed.

Lemma py_index_inv (a : list float) (i : Z) (v : float) :
  py_index a i = Ok v ->
  In v a /\ (0 <= i -> i < len a /\ v = at_ a (Z.to_nat i)).
Proof.
  unfold py_index.
  set (j := if i <? 0 then len a + i else i).
  destruct (Z.leb_spec 0 j); [|discriminate].
  destruct (Z.ltb_spec j (len a)); [|discriminate].
  cbn [andb]. intros [= <-]. split.
  - apply nth_In. unfold len in *. lia.
  - intros Hi. subst j. destruct (Z.ltb_spec i 0); [lia|]. split; [lia|reflexivity].
Qed.

Lemma py_slice_from_len (a : list float) (i : Z) :
  0 <= i <= len a -> len (py_slice_from a i) = len a - i.
Proof.
  intros H. unfold len in *. rewrite py_slice_from_length by lia. lia.
Qed.

(** X8: on a curve of at least 2 points with [persistence >= 1],
    [analyze_city_method] raises only what one of the two fits raises on the
    slice from the threshold index; when it returns, the threshold load and
    delay are the curve's point at that index, both AIC values are those of
    the two fits, and both fits have used all the points from the index
    on. *)
Theorem analyze_city_method_outcome (np_log10 np_log : float -> float)
    (matmul : list (float * float) -> float * float -> list float)
    (lstsq_solve : list (float * float) -> list float -> result (float * float))
    (x y : list float) (slope_cutoff : float) (persistence smooth_window : Z) :
  length x = length y -> (2 <= length x)%nat -> 1 <= persistence ->
  exists i,
    detect_threshold np_log10 x y slope_cutoff persistence smooth_window = Ok i /\
    0 <= i <= len x - 1 /\
    match analyze_city_method np_log10 np_log matmul lstsq_solve x y slope_cutoff
            persistence smooth_window with
    | Ok row =>
        exists fe fp,
          fit_exponential np_log matmul lstsq_solve (py_slice_from x i) (py_slice_from y i)
          = Ok fe /\
          fit_powerlaw np_log matmul lstsq_solve (py_slice_from x i) (py_slice_from y i)
          = Ok fp /\
          x_th row = at_ x (Z.to_nat i) /\ y_th row = at_ y (Z.to_nat i) /\
          aic_exp row = aic fe /\ aic_pow row = aic fp /\
          n fe = len x - i /\ n fp = len x - i
    | Raise e =>
        fit_exponential np_log matmul lstsq_solve (py_slice_from x i) (py_slice_from y i)
        = Raise e \/
        fit_powerlaw np_log matmul lstsq_solve (py_slice_from x i) (py_slice_from y i)
        = Raise e
    end.
Proof.
  intros Hxy Hx Hp.
  destruct (detect_threshold_returns_index np_log10 x y slope_cutoff persistence
              smooth_window Hxy Hx Hp) as (i & Hi & Hr).
  exists i. split; [exact Hi|]. split; [exact Hr|].
  unfold analyze_city_method. rewrite Hi. cbn [bind].
  destruct (py_index x i) as [xv|e] eqn:Ex.
  2:{ destruct (py_index_in_range x i Hr) as [v Hv]. congruence. }
  destruct (py_index y i) as [yv|e] eqn:Ey.
  2:{ destruct (py_index_in_range y i) as [v Hv]; [unfold len in *; lia|congruence]. }
  cbn [bind].
  apply py_index_inv in Ex, Ey.
  destruct (fit_exponential np_log matmul lstsq_solve (py_slice_from x i) (py_slice_from y i))
    as [fe|e] eqn:Ee; cbn [bind]; [|left; reflexivity].
  destruct (fit_powerlaw np_log matmul lstsq_solve (py_slice_from x i) (py_slice_from y i))
    as [fp|e] eqn:Ep; cbn [bind]; [|right; reflexivity].
  exists fe, fp. cbn [x_th y_th aic_exp aic_pow].
  apply fit_exponential_inv in Ee. apply fit_powerlaw_inv in Ep.
  rewrite py_slice_from_len in Ee, Ep by lia.
  repeat split; try reflexivity; tauto.
Qed.

Lemma analyze_city_method_outcome_witness :
  exists i,
    detect_threshold log10_pow10 [10; 100]%float [1; 1]%float 0.75 3 3 = Ok i /\
    0 <= i <= len [10; 100]%float - 1 /\
    match analyze_city_method log10_pow10 ln_pow10 matvec lstsq_zero_response
            [10; 100]%float [1; 1]%float 0.75 3 3 with
    | Ok row =>
        exists fe fp,
          fit_exponential ln_pow10 matvec lstsq_zero_response
            (py_slice_from [10; 100]%float i) (py_slice_from [1; 1]%float i) = Ok fe /\
          fit_powerlaw ln_pow10 matvec lstsq_zero_response
            (py_slice_from [10; 100]%float i) (py_slice_from [1; 1]%float i) = Ok fp /\
          x_th row = at_ [10; 100]%float (Z.to_nat i) /\
          y_th row = at_ [1; 1]%float (Z.to_nat i) /\
          aic_exp row = aic fe /\ aic_pow row = aic fp /\
          n fe = len [10; 100]%float - i /\ n fp = len [10; 100]%float - i
    | Raise e =>
        fit_exponential ln_pow10 matvec lstsq_zero_response
          (py_slice_from [10; 100]%float i) (py_slice_from [1; 1]%float i) = Raise e \/
        fit_powerlaw ln_pow10 matvec lstsq_zero_response
          (py_slice_from [10; 100]%float i) (py_slice_from [1; 1]%float i) = Raise e
    end.
Proof.
  apply (analyze_city_method_outcome log10_pow10 ln_pow10 matvec lstsq_zero_response
           [10; 100]%float [1; 1]%float 0.75%float 3 3);
    [reflexivity | cbn; lia | lia].
Defined.

(** X9: in every row [analyze_city_method] returns, the selected model is
    the exponential one exactly when the exponential AIC is strictly below
    the power-law AIC as floats; on a tie, or when either AIC is
    not-a-number, the row names the power-law model. *)
Theorem analyze_city_method_model_follows_aic (np_log10 np_log : float -> float)
    (matmul : list (float * float) -> float * float -> list float)
    (lstsq_solve : list (float * float) -> list float -> result (float * float))
    (x y : list float) (slope_cutoff : float) (persistence smooth_window : Z)
    (row : city_row) :
  analyze_city_method np_log10 np_log matmul lstsq_solve x y slope_cutoff
    persistence smooth_window = Ok row ->
  (model_selected row = exp_model <-> (aic_exp row <? aic_pow row)%float = true) /\
  (model_selected row = pow_model <-> (aic_exp row <? aic_pow row)%float = false) /\
  (Float.isnan (aic_exp row) = true \/ Float.isnan (aic_pow row) = true ->
   model_selected row = pow_model).
Proof.
  unfold analyze_city_method.
  destruct (detect_threshold _ _ _ _ _ _) as [i|]; cbn [bind]; [|discriminate].
  destruct (py_index x i); cbn [bind]; [|discriminate].
  destruct (py_index y i); cbn [bind]; [|discriminate].
  destruct (fit_exponential _ _ _ _) as [fe|] eqn:Ee; cbn [bind]; [|discriminate].
  destruct (fit_powerlaw _ _ _ _) as [fp|] eqn:Ep; cbn [bind]; [|discriminate].
  intros [= <-]. cbn [model_selected aic_exp aic_pow].
  apply fit_exponential_inv in Ee. apply fit_powerlaw_inv in Ep.
  destruct Ee as [Me _], Ep as [Mp _].
  unfold select_best.
  assert (Hnan : Float.isnan (aic fe) = true \/ Float.isnan (aic fp) = true ->
                 (aic fe <? aic fp)%float = false).
  { intros Hn. destruct (aic fe <? aic fp)%float eqn:E; [|reflexivity].
    apply FloatFacts.ltb_not_nan in E. destruct E, Hn; congruence. }
  destruct (aic fe <? aic fp)%float eqn:E.
  - rewrite Me. repeat split; try congruence; try discriminate.
    intros Hn. apply Hnan in Hn. discriminate.
  - rewrite Mp. repeat split; try congruence; discriminate.
Qed.

Lemma analyze_city_method_model_follows_aic_witness :
  exists row,
    analyze_city_method log10_pow10 ln_pow10 matvec lstsq_zero_response
      [10; 100]%float [1; 1]%float 0.75 3 3 = Ok row /\
    (model_selected row = exp_model <-> (aic_exp row <? aic_pow row)%float = true) /\
    (model_selected row = pow_model <-> (aic_exp row <? aic_pow row)%float = false) /\
    (Float.isnan (aic_exp row) = true \/ Float.isnan (aic_pow row) = true ->
     model_selected row = pow_model).
Proof.
  eexists. split; [vm_compute; reflexivity|].
  apply (analyze_city_method_model_follows_aic log10_pow10 ln_pow10
           matvec lstsq_zero_response [10; 100]%float [1; 1]%float 0.75%float 3 3).
  vm_compute. reflexivity.
Defined.

Lemma read_summary_series_series
    (sort_values : list (float * float) -> list (float * float))
    (df : frame) (value_column : string) (x y : list float) :
  (forall l, Permutation (sort_values l) l) ->
  read_summary_series sort_values df value_column = Returned (x, y) ->
  Forall (fun v => (0 <? v)%float = true) y /\
  Forall (fun v => exists value,
            In value (column df value_column) /\ Float.isnan value = false /\
            v = (value * 2)%float) x.
Proof.
  intros Hperm. unfold read_summary_series.
  destruct (negb (has_column df value_column)); [discriminate|].
  destruct (_detect_mean_column df) as [mean_column|e]; [|discriminate].
  destruct (String.eqb value_column mean_column); [discriminate|].
  set (data := sort_values (dropna (combine (column df value_column)
                                            (column df mean_column)))).
  rewrite (map_map snd (fun y => Float.gtb y 0) data).
  rewrite (boolean_index_map (fun r => (fst r * 2)%float)
             (fun r => Float.gtb (snd r) 0) data).
  rewrite (boolean_index_map snd (fun r => Float.gtb (snd r) 0) data).
  intros [= <- <-]. split.
  - apply Forall_forall. intros v Hv. apply in_map_iff in Hv.
    destruct Hv as (r & <- & Hr). apply filter_In in Hr. exact (proj2 Hr).
  - apply Forall_forall. intros v Hv. apply in_map_iff in Hv.
    destruct Hv as (r & <- & Hr). apply filter_In in Hr. destruct Hr as [Hr _].
    apply (Permutation_in _ (Hperm _)) in Hr.
    apply filter_In in Hr. destruct Hr as [Hr Hnan].
    apply andb_true_iff in Hnan. destruct Hnan as [Hnan _].
    apply negb_true_iff in Hnan.
    exists (fst r). repeat split; [|exact Hnan].
    destruct r as [a b]. exact (in_combine_l _ _ _ _ Hr).
Qed.

(** X10: when [analyze_city_method] returns a row for the two series that
    [read_summary_series] read from a sheet, the threshold delay of the row
    is strictly positive and its threshold load is twice a numeric value of
    the sheet's value column, for every cutoff, persistence and window. *)
Theorem analyze_city_method_threshold_from_sheet
    (sort_values : list (float * float) -> list (float * float))
    (np_log10 np_log : float -> float)
    (matmul : list (float * float) -> float * float -> list float)
    (lstsq_solve : list (float * float) -> list float -> result (float * float))
    (df : frame) (value_column : string) (x y : list float)
    (slope_cutoff : float) (persistence smooth_window : Z) (row : city_row) :
  (forall l, Permutation (sort_values l) l) ->
  read_summary_series sort_values df value_column = Returned (x, y) ->
  analyze_city_method np_log10 np_log matmul lstsq_solve x y slope_cutoff
    persistence smooth_window = Ok row ->
  (0 <? y_th row)%float = true /\
  exists value,
    In value (column df value_column) /\ Float.isnan value = false /\
    x_th row = (value * 2)%float.
Proof.
  intros Hperm Hread.
  destruct (read_summary_series_series sort_values df value_column x y Hperm Hread)
    as [Hy Hx].
  unfold analyze_city_method.
  destruct (detect_threshold _ _ _ _ _ _) as [i|]; cbn [bind]; [|discriminate].
  destruct (py_index x i) as [xv|] eqn:Ex; cbn [bind]; [|discriminate].
  destruct (py_index y i) as [yv|] eqn:Ey; cbn [bind]; [|discriminate].
  destruct (fit_exponential _ _ _ _) as [fe|]; cbn [bind]; [|discriminate].
  destruct (fit_powerlaw _ _ _ _) as [fp|]; cbn [bind]; [|discriminate].
  intros [= <-]. cbn [x_th y_th].
  apply py_index_inv in Ex, Ey. split.
  - exact (proj1 (Forall_forall _ _) Hy yv (proj1 Ey)).
  - exact (proj1 (Forall_forall _ _) Hx xv (proj1 Ex)).
Qed.

Lemma analyze_city_method_threshold_from_sheet_witness :
  read_summary_series sort_rows flat_sheet "value"
  = Returned ([10; 100], [1; 1])%float /\
  exists row,
    analyze_city_method log10_pow10 ln_pow10 matvec lstsq_zero_response
      [10; 100]%float [1; 1]%float 0.75 3 3 = Ok row /\
    (0 <? y_th row)%float = true /\
    exists value,
      In value (column flat_sheet "value") /\ Float.isnan value = false /\
      x_th row = (value * 2)%float.
Proof.
  assert (H : read_summary_series sort_rows flat_sheet "value"
              = Returned ([10; 100], [1; 1])%float) by (vm_compute; reflexivity).
  split; [exact H|].
  eexists. split; [vm_compute; reflexivity|].
  apply (analyze_city_method_threshold_from_sheet sort_rows log10_pow10 ln_pow10
           matvec lstsq_zero_response flat_sheet "value" [10; 100]%float [1; 1]%float
           0.75%float 3 3).
  - exact sort_rows_perm.
  - exact H.
  - vm_compute. reflexivity.
Defined.

(** ** Trip duration statistics *)

Module FloatSign.









End FloatSign.






(** ** Trip completion *)

Section TripCompletionProperties.

Variable py_float : string -> option float.
Variable str_lower : string -> string.

Let complete := is_complete py_float.
Let public := is_public_transport str_lower.

Lemma fold_count_trip (tripinfos : list attribs) :
  forall a b c d,
    fold_left (count_trip py_float str_lower) tripinfos (a, b, c, d)
    = (a + count_if (fun t => public t && complete t) tripinfos,
       b + count_if (fun t => public t && negb (complete t)) tripinfos,
       c + count_if (fun t => negb (public t) && complete t) tripinfos,
       d + count_if (fun t => negb (public t) && negb (complete t)) tripinfos).
Proof.
  unfold count_if, len, complete, public.
  induction tripinfos as [|t rest IH]; intros a b c d; cbn [fold_left filter].
  - cbn. rewrite !Z.add_0_r. reflexivity.
  - unfold count_trip at 2.
    destruct (is_public_transport str_lower t), (is_complete py_float t);
      cbn [andb negb]; rewrite IH; cbn [length];
      rewrite ?Nat2Z.inj_succ;
      repeat match goal with |- (_, _) = (_, _) => apply f_equal2 end; lia.
Qed.

End TripCompletionProperties.

Lemma count_if_partition {A : Type} (p c : A -> bool) (l : list A) :
  count_if (fun t => p t && c t) l + count_if (fun t => p t && negb (c t)) l
  + count_if (fun t => negb (p t) && c t) l
  + count_if (fun t => negb (p t) && negb (c t)) l = len l.
Proof.
  unfold count_if, len. induction l as [|t rest IH]; [reflexivity|].
  cbn [filter]. destruct (p t), (c t); cbn [andb negb length];
    rewrite ?Nat2Z.inj_succ; lia.
Qed.

Lemma is_complete_iff (py_float : string -> option float) (tripinfo : attribs) :
  is_complete py_float tripinfo = true <->
  attr_get tripinfo "vaporized" "" <> "true"%string /\
  attr_get tripinfo "arrival" "" <> ""%string /\
  exists d, py_float (attr_get tripinfo "duration" "0") = Some d /\
            (d <=? 0)%float = false.
Proof.
  unfold is_complete.
  destruct (String.eqb_spec (attr_get tripinfo "vaporized" "") "true") as [Ev|Ev];
    destruct (String.eqb_spec (attr_get tripinfo "arrival" "") "") as [Ea|Ea];
    destruct (py_float (attr_get tripinfo "duration" "0")) as [d|];
    try destruct (d <=? 0)%float eqn:Ed;
    split; try discriminate; try tauto;
    try (intros (_ & _ & d' & Hd & Hle); congruence).
  intros _. repeat split; try assumption. exists d. split; [reflexivity|exact Ed].
Qed.

(** X13: [analyze_trip_completion_by_type] counts every [tripinfo] element
    exactly once: each of the four counters is the number of elements of its
    class, the four add up to the number of elements, and a percentage is
    [0.0] when its class is empty.  An element is complete exactly when it is
    not vaporized, has a non-empty arrival, and has a duration that [float]
    accepts and that is not [<= 0]. *)
Theorem analyze_trip_completion_counts (py_float : string -> option float)
    (str_lower : string -> string) (tripinfos : list attribs) :
  let r := analyze_trip_completion_by_type py_float str_lower (Some tripinfos) in
  let complete := is_complete py_float in
  let public := is_public_transport str_lower in
  pt_complete r = count_if (fun t => public t && complete t) tripinfos /\
  pt_incomplete r = count_if (fun t => public t && negb (complete t)) tripinfos /\
  pv_complete r = count_if (fun t => negb (public t) && complete t) tripinfos /\
  pv_incomplete r
  = count_if (fun t => negb (public t) && negb (complete t)) tripinfos /\
  pt_complete r + pt_incomplete r + pv_complete r + pv_incomplete r
  = len tripinfos /\
  (pt_complete r + pt_incomplete r = 0 -> pt_percentage r = 0%float) /\
  (pv_complete r + pv_incomplete r = 0 -> pv_percentage r = 0%float) /\
  (forall t,
     complete t = true <->
     attr_get t "vaporized" "" <> "true"%string /\
     attr_get t "arrival" "" <> ""%string /\
     exists d, py_float (attr_get t "duration" "0") = Some d /\
               (d <=? 0)%float = false).
Proof.
  cbv zeta. unfold analyze_trip_completion_by_type.
  rewrite fold_count_trip. cbn [Z.add].
  set (a := count_if _ tripinfos).
  set (b := count_if (fun t => _ && negb _) tripinfos).
  set (c := count_if (fun t => negb _ && is_complete _ _) tripinfos).
  set (d := count_if (fun t => negb _ && negb _) tripinfos).
  cbn [pt_complete pt_incomplete pv_complete pv_incomplete pt_percentage pv_percentage].
  do 4 (split; [reflexivity|]).
  split.
  { exact (count_if_partition (is_public_transport str_lower)
             (is_complete py_float) tripinfos). }
  split.
  { intros H. destruct (Z.gtb_spec (a + b) 0); [lia|reflexivity]. }
  split.
  { intros H. destruct (Z.gtb_spec (c + d) 0); [lia|reflexivity]. }
  intros t. apply is_complete_iff.
Qed.

(** Four elements: a completed bus trip, a vaporized car, a car without
    arrival, a tram without duration. *)
Example analyze_trip_completion_sample :
  analyze_trip_completion_by_type float_of_sample lower_sample (Some sample_trips)
  = mkCompletion 1 1 0 2 50 0.
Proof.
  vm_compute. reflexivity.
Qed.

(** ** Grouping by traffic level *)

Lemma dict_lookup_append (d : traffic_dict) (k k' : Z) (v : string) :
  dict_lookup (dict_append d k v) k'
  = if k =? k'
    then Some (match dict_lookup d k with Some files => files | None => [] end
               ++ [v])
    else dict_lookup d k'.
Proof.
  induction d as [|[k0 files] d IH]; cbn [dict_append dict_lookup].
  - destruct (Z.eqb_spec k k'); reflexivity.
  - destruct (Z.eqb_spec k0 k) as [->|Hk0]; cbn [dict_lookup].
    + destruct (Z.eqb_spec k k'); reflexivity.
    + rewrite IH. destruct (Z.eqb_spec k k') as [->|Hkk'].
      * destruct (Z.eqb_spec k0 k'); [contradiction|reflexivity].
      * reflexivity.
Qed.

Lemma dict_append_keys (d : traffic_dict) (k : Z) (v : string) :
  NoDup (map fst d) -> NoDup (map fst (dict_append d k v)) /\
  (forall k', In k' (map fst (dict_append d k v)) <-> k' = k \/ In k' (map fst d)).
Proof.
  induction d as [|[k0 files] d IH]; cbn [dict_append map fst]; intros Hd.
  - split; [repeat constructor; intros []|]. intros k'. cbn. intuition.
  - inversion Hd as [|? ? Hk0 Hd']; subst.
    destruct (Z.eqb_spec k0 k) as [->|Hne]; cbn [map fst].
    + split; [exact Hd|]. intros k'. cbn. intuition.
    + destruct (IH Hd') as [IH1 IH2]. split.
      * constructor; [|exact IH1]. rewrite IH2. intuition.
      * intros k'. cbn [In]. rewrite IH2. intuition.
Qed.

Lemma dict_lookup_In (d : traffic_dict) (k : Z) (files : list string) :
  NoDup (map fst d) ->
  (In (k, files) d <-> dict_lookup d k = Some files).
Proof.
  induction d as [|[k0 fs] d IH]; cbn [dict_lookup map fst In]; intros Hd.
  - split; [intros []|discriminate].
  - inversion Hd as [|? ? Hk0 Hd']; subst.
    destruct (Z.eqb_spec k0 k) as [->|Hne].
    + split.
      * intros [[= ->]|Hin]; [reflexivity|].
        exfalso. apply Hk0. apply (in_map fst) in Hin. exact Hin.
      * intros [= ->]. left. reflexivity.
    + rewrite <- (IH Hd'). split; [|tauto].
      intros [[= -> _]|Hin]; [contradiction|exact Hin].
Qed.

Section GroupingProperties.

Variable py_int : string -> option Z.

Lemma entry_of_snoc (k : Z) (done : list sim_file) (f : sim_file) :
  entry_of py_int k (done ++ [f])
  = if level_is py_int k f
    then Some (match entry_of py_int k done with
               | Some files => files
               | None => []
               end ++ [fst f])
    else entry_of py_int k done.
Proof.
  unfold entry_of. rewrite filter_app, map_app. cbn [filter].
  generalize (map fst (filter (level_is py_int k) done)). intros m.
  destruct (level_is py_int k f); cbn [map].
  - destruct m as [|p ps]; reflexivity.
  - rewrite app_nil_r. reflexivity.
Qed.

(** What the loop keeps: distinct keys, and under each level the paths of
    the files of that level read so far, in order. *)
Lemma fold_group_file (sim_files : list sim_file) :
  forall (d : traffic_dict) (done : list sim_file),
    NoDup (map fst d) ->
    (forall k, dict_lookup d k = entry_of py_int k done) ->
    let d' := fold_left (group_file py_int) sim_files d in
    NoDup (map fst d') /\
    forall k, dict_lookup d' k = entry_of py_int k (done ++ sim_files).
Proof.
  induction sim_files as [|f rest IH]; intros d done Hd Hlook; cbn [fold_left].
  - cbv zeta. rewrite app_nil_r. split; assumption.
  - replace (done ++ f :: rest) with ((done ++ [f]) ++ rest)
      by (rewrite <- app_assoc; reflexivity).
    apply IH.
    + unfold group_file. destruct (traffic_level_of py_int (snd f)); [|exact Hd].
      apply dict_append_keys, Hd.
    + intros k. rewrite entry_of_snoc. unfold group_file, level_is.
      destruct (traffic_level_of py_int (snd f)) as [l|]; [|apply Hlook].
      rewrite dict_lookup_append, <- !Hlook.
      destruct (Z.eqb_spec l k) as [->|Hne]; reflexivity.
Qed.

End GroupingProperties.

Lemma filter_filter_and {A : Type} (f g : A -> bool) (l : list A) :
  filter g (filter f l) = filter (fun a => f a && g a) l.
Proof.
  induction l as [|a l IH]; cbn [filter]; [reflexivity|].
  destruct (f a); cbn [filter andb]; [destruct (g a)|]; rewrite IH; reflexivity.
Qed.

(** X14: the dictionary built for a city has one entry per traffic level;
    the entry of a level lists, in directory order, the paths of exactly the
    files whose name contains [sim_output] and has that level as its second
    part between underscores, and a level is a key only when there is such a
    file. *)
Theorem group_by_traffic_level_entries (py_int : string -> option Z)
    (xml_files : list sim_file) :
  let groups := group_by_traffic_level py_int xml_files in
  NoDup (map fst groups) /\
  forall k files,
    In (k, files) groups <->
    files <> [] /\ files = map fst (filter (has_level py_int k) xml_files).
Proof.
  cbv zeta. unfold group_by_traffic_level.
  destruct (fold_group_file py_int
              (filter (fun f => contains "sim_output" (snd f)) xml_files) [] [])
    as [Hnd Hlook]; [constructor | reflexivity |].
  cbn [app] in Hlook. split; [exact Hnd|].
  intros k files. rewrite (dict_lookup_In _ k files Hnd), Hlook.
  unfold entry_of. rewrite filter_filter_and.
  change (fun a : sim_file => contains "sim_output" (snd a) && level_is py_int k a)
    with (has_level py_int k).
  destruct (map fst (filter (has_level py_int k) xml_files)) as [|p ps].
  - split; [discriminate|]. intros [Hne ->]. congruence.
  - split.
    + intros [= <-]. split; [discriminate|reflexivity].
    + intros [_ ->]. reflexivity.
Qed.

Example group_by_traffic_level_sample :
  group_by_traffic_level int_of_sample sample_directory
  = [(10000, ["sim/4_10000_1_Szeged_sim_output.xml";
              "sim/4_10000_2_Szeged_sim_output.xml"]);
     (20000, ["sim/4_20000_1_Szeged_sim_output.xml"])]%string.
Proof.
  vm_compute. reflexivity.
Qed.

(** ** The centre of a network *)

Section CenterProperties.

Variable py_float : string -> option float.
Variable split_ws : string -> list string.

Lemma sum_first_points_count (edges : list attribs) :
  forall x_sum y_sum count x_sum' y_sum' count',
    sum_first_points py_float split_ws edges x_sum y_sum count
    = Returned (x_sum', y_sum', count') ->
    count' = count + count_if (fun edge => match attr_find edge "shape" with
                                           | Some _ => true
                                           | None => false
                                           end) edges.
Proof.
  unfold count_if, len.
  induction edges as [|edge rest IH]; intros xs ys c xs' ys' c';
    cbn [sum_first_points filter].
  - intros [= <- <- <-]. cbn. lia.
  - destruct (attr_find edge "shape") as [shape|].
    + destruct (coords_of py_float (split_ws shape)) as [coords|e]; [|discriminate].
      destruct coords as [|[|x [|y [|z first]]] others]; try discriminate.
      intros H. apply IH in H. cbn [length]. rewrite Nat2Z.inj_succ. lia.
    + apply IH.
Qed.

Lemma sum_first_points_no_shape (edges : list attribs) :
  (forall edge, In edge edges -> attr_find edge "shape" = None) ->
  forall x_sum y_sum count,
    sum_first_points py_float split_ws edges x_sum y_sum count
    = Returned (x_sum, y_sum, count).
Proof.
  induction edges as [|edge rest IH]; intros Hnone xs ys c; cbn [sum_first_points].
  - reflexivity.
  - rewrite (Hnone edge (or_introl eq_refl)). apply IH.
    intros e He. apply Hnone. right. exact He.
Qed.

Lemma sum_first_points_no_zero_division (edges : list attribs) :
  forall x_sum y_sum count,
    sum_first_points py_float split_ws edges x_sum y_sum count
    <> Raised ZeroDivisionError.
Proof.
  induction edges as [|edge rest IH]; intros xs ys c; cbn [sum_first_points].
  - discriminate.
  - destruct (attr_find edge "shape") as [shape|]; [|apply IH].
    destruct (coords_of py_float (split_ws shape)) as [coords|e] eqn:Ec.
    + destruct coords as [|[|x [|y [|z first]]] others]; try discriminate.
      apply IH.
    + intros [= ->]. revert Ec. generalize (split_ws shape) as shp.
      induction shp as [|coord shp IHs]; cbn [coords_of]; [discriminate|].
      destruct (floats_of py_float (split_on "," coord)) as [c0|e0] eqn:Ef.
      * destruct (coords_of py_float shp); [discriminate|].
        intros [= ->]. apply IHs. reflexivity.
      * intros [= ->]. revert Ef. generalize (split_on "," coord) as parts.
        induction parts as [|part parts IHp]; cbn [floats_of]; [discriminate|].
        destruct (py_float part); [|discriminate].
        destruct (floats_of py_float parts); [discriminate|].
        intros [= ->]. apply IHp. reflexivity.
Qed.

End CenterProperties.

(** X15: [find_average_center] raises [ZeroDivisionError] exactly when no
    edge of the network has a [shape] attribute; and when it returns, at
    least one edge has one. *)
Theorem find_average_center_zero_division (py_float : string -> option float)
    (split_ws : string -> list string) (edges : list attribs) :
  (find_average_center py_float split_ws edges = Raised ZeroDivisionError <->
   forall edge, In edge edges -> attr_find edge "shape" = None) /\
  (forall center,
     find_average_center py_float split_ws edges = Returned center ->
     exists edge, In edge edges /\ attr_find edge "shape" <> None).
Proof.
  unfold find_average_center. split; [split|].
  - destruct (sum_first_points py_float split_ws edges 0 0 0)
      as [[[xs ys] c]|e] eqn:E.
    + apply sum_first_points_count in E.
      destruct (Z.eqb_spec c 0) as [Hc|Hc]; [|discriminate].
      intros _ edge Hin.
      destruct (attr_find edge "shape") as [shape|] eqn:Es; [|reflexivity].
      exfalso. unfold count_if, len in E.
      assert (Hf : In edge (filter (fun edge => match attr_find edge "shape" with
                                                | Some _ => true
                                                | None => false
                                                end) edges)).
      { apply filter_In. split; [exact Hin|]. rewrite Es. reflexivity. }
      destruct (filter _ edges); [contradiction|]. cbn [length] in E. lia.
    + intros [= ->]. exfalso.
      exact (sum_first_points_no_zero_division py_float split_ws edges _ _ _ E).
  - intros Hnone.
    rewrite (sum_first_points_no_shape py_float split_ws edges Hnone). reflexivity.
  - intros center.
    destruct (sum_first_points py_float split_ws edges 0 0 0)
      as [[[xs ys] c]|e] eqn:E; [|discriminate].
    apply sum_first_points_count in E.
    destruct (Z.eqb_spec c 0) as [Hc|Hc]; [discriminate|]. intros _.
    unfold count_if, len in E.
    destruct (filter _ edges) as [|edge others] eqn:Ef; [cbn in E; lia|].
    assert (Hin : In edge (edge :: others)) by (left; reflexivity).
    rewrite <- Ef in Hin. apply filter_In in Hin. destruct Hin as [Hin Hs].
    exists edge. split; [exact Hin|].
    destruct (attr_find edge "shape"); [discriminate|discriminate].
Qed.

(** Two shaped edges and one without shape: the mean of the first points;
    and a network whose shapes carry a third coordinate. *)
Example find_average_center_sample :
  find_average_center float_of_coord split_sample
    [[("id", "e1"); ("shape", "0.00,10.00 10.00,10.00")];
     [("id", "e2")];
     [("id", "e3"); ("shape", "30.00,30.00")]]%string
  = Returned (15, 20)%float /\
  find_average_center float_of_coord split_sample
    [[("id", "e1"); ("shape", "0.00,0.00,0.00 10.00,10.00,0.00")]]%string
  = Raised (Core ValueError).
Proof.
  split; vm_compute; reflexivity.
Qed.

(** ** Stop locations and delays *)

Lemma dict_find_In {V : Type} (d : list (string * V)) (key : string) (v : V) :
  dict_find d key = Some v -> In (key, v) d.
Proof.
  unfold dict_find. destruct (find _ d) as [[k w]|] eqn:E; [|discriminate].
  intros [= <-]. apply find_some in E. destruct E as [Hin Hk].
  apply String.eqb_eq in Hk. cbn in Hk. subst k. exact Hin.
Qed.

Lemma dict_set_In {V : Type} (d : list (string * V)) (key : string) (v : V)
    (k : string) (w : V) :
  In (k, w) (dict_set d key v) -> (k, w) = (key, v) \/ In (k, w) d.
Proof.
  induction d as [|[k0 w0] d IH]; cbn [dict_set].
  - intros [H|[]]. left. symmetry. exact H.
  - destruct (String.eqb_spec k0 key) as [->|Hne]; cbn [In].
    + intros [H|H]; [left; symmetry; exact H|right; right; exact H].
    + intros [H|H]; [right; left; exact H|].
      destruct (IH H) as [E|Hin]; [left; exact E|right; right; exact Hin].
Qed.

Section StopLocationProperties.

Variable py_float : string -> option float.
Variable split_ws : string -> list string.

Lemma lane_coords_of_bad (points : list string) (point : string) :
  In point points -> bad_point py_float point ->
  lane_coords_of py_float points = None.
Proof.
  intros Hin [Hc Hbad]. induction points as [|p rest IH]; [contradiction|].
  cbn [lane_coords_of]. destruct Hin as [->|Hin].
  - rewrite Hc. destruct (split_on "," point) as [|x [|y [|z parts]]];
      try reflexivity.
    destruct (Hbad x y eq_refl) as [-> | Hy]; [reflexivity|].
    rewrite Hy. destruct (py_float x); reflexivity.
  - rewrite (IH Hin).
    destruct (contains "," p); [|reflexivity].
    destruct (split_on "," p) as [|x [|y [|z parts]]]; try reflexivity.
    destruct (py_float x), (py_float y); reflexivity.
Qed.

Lemma read_lanes_bad (lanes : list attribs) (lane : attribs)
    (lane_id shape : string) :
  In lane lanes ->
  attr_find lane "id" = Some lane_id -> attr_find lane "shape" = Some shape ->
  lane_id <> ""%string -> shape <> ""%string ->
  lane_coords_of py_float (split_ws shape) = None ->
  forall lane_coords, read_lanes py_float split_ws lanes lane_coords = None.
Proof.
  intros Hin Hid Hshape Hid0 Hshape0 Hbad.
  induction lanes as [|l rest IH]; [contradiction|].
  intros lane_coords. cbn [read_lanes]. destruct Hin as [->|Hin].
  - rewrite Hid, Hshape. unfold nonempty.
    destruct (String.eqb_spec lane_id ""); [contradiction|].
    destruct (String.eqb_spec shape ""); [contradiction|].
    cbn [negb andb]. rewrite Hbad. reflexivity.
  - destruct (attr_find l "id") as [lid|]; [|apply IH, Hin].
    destruct (attr_find l "shape") as [shp|]; [|apply IH, Hin].
    destruct (nonempty lid && nonempty shp); [|apply IH, Hin].
    destruct (lane_coords_of py_float (split_ws shp)) as [[|c cs]|];
      [apply IH, Hin | apply IH, Hin | reflexivity].
Qed.

Lemma read_lanes_from_lane (all_lanes lanes : list attribs) :
  (forall lane, In lane lanes -> In lane all_lanes) ->
  forall lane_coords result,
    (forall k c, In (k, c) lane_coords -> from_lane py_float split_ws all_lanes k c) ->
    read_lanes py_float split_ws lanes lane_coords = Some result ->
    forall k c, In (k, c) result -> from_lane py_float split_ws all_lanes k c.
Proof.
  induction lanes as [|l rest IH]; intros Hsub lane_coords result Hinv;
    cbn [read_lanes].
  - intros [= <-]. exact Hinv.
  - assert (Hrest : forall lane, In lane rest -> In lane all_lanes)
      by (intros lane H; apply Hsub; right; exact H).
    destruct (attr_find l "id") as [lid|] eqn:Eid; [|apply (IH Hrest), Hinv].
    destruct (attr_find l "shape") as [shp|] eqn:Es; [|apply (IH Hrest), Hinv].
    destruct (nonempty lid && nonempty shp); [|apply (IH Hrest), Hinv].
    destruct (lane_coords_of py_float (split_ws shp)) as [[|c0 cs]|] eqn:Ec;
      [apply (IH Hrest), Hinv | | discriminate].
    apply (IH Hrest). intros k c Hin.
    apply dict_set_In in Hin. destruct Hin as [[= -> ->]|Hin]; [|apply Hinv, Hin].
    exists l, shp, (c0 :: cs). repeat split; try assumption.
    + apply Hsub. left. reflexivity.
    + apply (nth_In (c0 :: cs) (0, 0)%float).
      change (Nat.div (length (c0 :: cs)) 2 < length (c0 :: cs))%nat.
      apply Nat.div_lt; cbn [length]; lia.
Qed.

Lemma fold_add_stop_entries (lane_coords : list (string * point))
    (all_stops bus_stops : list attribs) :
  (forall s, In s bus_stops -> In s all_stops) ->
  forall stop_locations,
    (forall k c, In (k, c) stop_locations ->
       exists bus_stop lane,
         In bus_stop all_stops /\ attr_find bus_stop "id" = Some k /\
         attr_find bus_stop "lane" = Some lane /\ In (lane, c) lane_coords) ->
    forall k c,
      In (k, c) (fold_left (add_stop lane_coords) bus_stops stop_locations) ->
      exists bus_stop lane,
        In bus_stop all_stops /\ attr_find bus_stop "id" = Some k /\
        attr_find bus_stop "lane" = Some lane /\ In (lane, c) lane_coords.
Proof.
  induction bus_stops as [|s rest IH]; intros Hsub stop_locations Hinv;
    cbn [fold_left]; [exact Hinv|].
  apply IH; [intros s' H; apply Hsub; right; exact H|].
  unfold add_stop.
  destruct (attr_find s "id") as [sid|] eqn:Eid; [|exact Hinv].
  destruct (attr_find s "lane") as [lane|] eqn:El; [|exact Hinv].
  destruct (nonempty sid && nonempty lane); [|exact Hinv].
  destruct (dict_find lane_coords lane) as [coord|] eqn:Ef; [|exact Hinv].
  intros k c Hin. apply dict_set_In in Hin.
  destruct Hin as [[= -> ->]|Hin]; [|apply Hinv, Hin].
  exists s, lane. repeat split; try assumption.
  - apply Hsub. left. reflexivity.
  - apply dict_find_In, Ef.
Qed.

End StopLocationProperties.

(** X16: reading the network is all or nothing: when one lane with an id and
    a shape has a shape point that contains a comma and is not two numbers
    around a single comma (a third coordinate, a part that [float] rejects),
    [parse_stop_locations_from_xml] returns the empty dictionary, whatever
    the other lanes and the stops are. *)
Theorem parse_stop_locations_bad_point_empties
    (py_float : string -> option float) (split_ws : string -> list string)
    (gtfs_add : option (list attribs)) (edges : list (list attribs))
    (lane : attribs) (lane_id shape point : string) :
  In lane (concat edges) ->
  attr_find lane "id" = Some lane_id -> attr_find lane "shape" = Some shape ->
  lane_id <> ""%string -> shape <> ""%string ->
  In point (split_ws shape) -> bad_point py_float point ->
  parse_stop_locations_from_xml py_float split_ws gtfs_add (Some edges) = [].
Proof.
  intros Hin Hid Hshape Hid0 Hshape0 Hpoint Hbad.
  unfold parse_stop_locations_from_xml.
  rewrite (read_lanes_bad py_float split_ws (concat edges) lane lane_id shape
             Hin Hid Hshape Hid0 Hshape0
             (lane_coords_of_bad py_float _ point Hpoint Hbad)).
  reflexivity.
Qed.

(** X17: every stop of the dictionary [parse_stop_locations_from_xml]
    returns is a [busStop] element with that id, and its location is the
    middle point (index [len // 2]) of the parsed shape of a lane of the
    network whose id is the stop's lane. *)
Theorem parse_stop_locations_entries
    (py_float : string -> option float) (split_ws : string -> list string)
    (bus_stops : list attribs) (edges : list (list attribs))
    (stop_id : string) (coord : float * float) :
  In (stop_id, coord)
     (parse_stop_locations_from_xml py_float split_ws (Some bus_stops) (Some edges)) ->
  exists bus_stop lane_id,
    In bus_stop bus_stops /\ attr_find bus_stop "id" = Some stop_id /\
    attr_find bus_stop "lane" = Some lane_id /\
    from_lane py_float split_ws (concat edges) lane_id coord.
Proof.
  unfold parse_stop_locations_from_xml.
  destruct (read_lanes py_float split_ws (concat edges) []) as [lane_coords|] eqn:E;
    [|intros []].
  intros Hin.
  destruct (fold_add_stop_entries lane_coords bus_stops bus_stops
              (fun s H => H) [] (fun k c (H : In (k, c) []) => match H with end)
              stop_id coord Hin)
    as (bus_stop & lane_id & Hs & Hid & Hl & Hc).
  exists bus_stop, lane_id. repeat split; try assumption.
  apply (read_lanes_from_lane py_float split_ws (concat edges) (concat edges)
           (fun l H => H) [] lane_coords
           (fun k c (H : In (k, c) []) => match H with end) E).
  exact Hc.
Qed.

Lemma parse_stop_locations_bad_point_empties_witness :
  parse_stop_locations_from_xml float_of_coord split_sample
    (Some [[("id", "s1"); ("lane", "l0")]]%string)
    (Some [[[("id", "l0"); ("shape", "30.00,30.00")]];
           [[("id", "l1"); ("shape", "0.00,0.00,0.00 10.00,10.00,0.00")]]]%string)
  = [].
Proof.
  apply (parse_stop_locations_bad_point_empties float_of_coord split_sample
           (Some [[("id", "s1"); ("lane", "l0")]]%string)
           [[[("id", "l0"); ("shape", "30.00,30.00")]];
            [[("id", "l1"); ("shape", "0.00,0.00,0.00 10.00,10.00,0.00")]]]%string
           [("id", "l1"); ("shape", "0.00,0.00,0.00 10.00,10.00,0.00")]%string
           "l1" "0.00,0.00,0.00 10.00,10.00,0.00" "0.00,0.00,0.00").
  - right. left. reflexivity.
  - reflexivity.
  - reflexivity.
  - discriminate.
  - discriminate.
  - left. reflexivity.
  - split; [reflexivity|]. intros x y H. discriminate H.
Defined.

Lemma parse_stop_locations_entries_witness :
  exists bus_stop lane_id,
    In bus_stop [[("id", "s1"); ("lane", "l1")]; [("id", "s2"); ("lane", "l9")]]%string /\
    attr_find bus_stop "id" = Some "s1"%string /\
    attr_find bus_stop "lane" = Some lane_id /\
    from_lane float_of_coord split_sample
      (concat [[[("id", "l1"); ("shape", "0.00,10.00 10.00,10.00")]]]%string)
      lane_id (10, 10)%float.
Proof.
  apply (parse_stop_locations_entries float_of_coord split_sample
           [[("id", "s1"); ("lane", "l1")]; [("id", "s2"); ("lane", "l9")]]%string
           [[[("id", "l1"); ("shape", "0.00,10.00 10.00,10.00")]]]%string
           "s1" (10, 10)%float).
  vm_compute. left. reflexivity.
Defined.

(** ** The stops of a heat map *)

Lemma dict_mem_find {V : Type} (d : list (string * V)) (key : string) :
  dict_mem d key = match dict_find d key with Some _ => true | None => false end.
Proof.
  unfold dict_mem, dict_find. induction d as [|p d IH]; [reflexivity|].
  cbn [existsb find]. destruct (String.eqb (fst p) key); [reflexivity|exact IH].
Qed.

Lemma matched_points_lengths (stop_locations : list (string * (float * float)))
    (stop_delays : list (string * float)) :
  let '(x_coords, y_coords, delays) := matched_points stop_locations stop_delays in
  length x_coords = length y_coords /\ length y_coords = length delays /\
  length x_coords =
    length (filter (fun p => dict_mem stop_delays (fst p)) stop_locations).
Proof.
  induction stop_locations as [|[stop_id [x y]] rest IH]; cbn [matched_points].
  - repeat split.
  - destruct (matched_points rest stop_delays) as [[xs ys] ds].
    destruct IH as (H1 & H2 & H3). cbn [filter fst].
    rewrite (dict_mem_find stop_delays stop_id).
    destruct (dict_find stop_delays stop_id) as [d|].
    + cbn [length]. rewrite <- H3, <- H2, <- H1. repeat split.
    + repeat split; assumption.
Qed.

Lemma matched_points_from_both (stop_locations : list (string * (float * float)))
    (stop_delays : list (string * float)) :
  let '(x_coords, y_coords, delays) := matched_points stop_locations stop_delays in
  forall x y delay,
    In (x, y, delay) (combine (combine x_coords y_coords) delays) ->
    exists stop_id,
      In (stop_id, (x, y)) stop_locations /\
      dict_find stop_delays stop_id = Some delay.
Proof.
  induction stop_locations as [|[stop_id [x y]] rest IH]; cbn [matched_points].
  - intros x y delay [].
  - destruct (matched_points rest stop_delays) as [[xs ys] ds].
    destruct (dict_find stop_delays stop_id) as [d|] eqn:Ef.
    + intros x' y' delay [[= <- <- <-]|Hin].
      * exists stop_id. split; [left; reflexivity | exact Ef].
      * destruct (IH x' y' delay Hin) as (k & Hk & Hd).
        exists k. split; [right; exact Hk | exact Hd].
    + intros x' y' delay Hin.
      destruct (IH x' y' delay Hin) as (k & Hk & Hd).
      exists k. split; [right; exact Hk | exact Hd].
Qed.

Lemma dict_mem_In {V : Type} (d : list (string * V)) (key : string) :
  dict_mem d key = true <-> In key (map fst d).
Proof.
  unfold dict_mem. rewrite existsb_exists, in_map_iff. split.
  - intros (p & Hp & Hk). exists p. apply String.eqb_eq in Hk. tauto.
  - intros (p & Hk & Hp). exists p. split; [exact Hp|].
    apply String.eqb_eq. exact Hk.
Qed.

Lemma NoDup_map_fst_filter {V : Type} (f : string * V -> bool)
    (d : list (string * V)) :
  NoDup (map fst d) -> NoDup (map fst (filter f d)).
Proof.
  induction d as [|p d IH]; cbn [map filter]; [intros H; exact H|].
  intros H. inversion H as [|k ks Hnot Hrest]; subst.
  destruct (f p); [|apply IH, Hrest].
  cbn [map]. constructor; [|apply IH, Hrest].
  intros Hin. apply Hnot. apply in_map_iff in Hin.
  destruct Hin as (q & Hq & Hf). apply filter_In in Hf.
  apply in_map_iff. exists q. tauto.
Qed.

(** X18: the three lists the matching loop of [create_heatmap] builds have
    one length, at most the number of located stops; position by position
    they hold the location and the delay of a stop that is in both
    dictionaries; the [No data available] branch is taken exactly when no
    located stop has a delay; and with the keys of [stop_locations] distinct,
    as in a dictionary, there are at most as many points as delays. *)
Theorem matched_points_in_both_dictionaries
    (stop_locations : list (string * (float * float)))
    (stop_delays : list (string * float)) :
  let '(x_coords, y_coords, delays) := matched_points stop_locations stop_delays in
  length x_coords = length y_coords /\ length y_coords = length delays /\
  (length x_coords <= length stop_locations)%nat /\
  (forall x y delay,
     In (x, y, delay) (combine (combine x_coords y_coords) delays) ->
     exists stop_id,
       In (stop_id, (x, y)) stop_locations /\
       dict_find stop_delays stop_id = Some delay) /\
  (x_coords = [] <->
   forall stop_id, In stop_id (map fst stop_locations) ->
                   dict_mem stop_delays stop_id = false) /\
  (NoDup (map fst stop_locations) ->
   (length x_coords <= length stop_delays)%nat).
Proof.
  pose proof (matched_points_lengths stop_locations stop_delays) as HL.
  pose proof (matched_points_from_both stop_locations stop_delays) as HB.
  destruct (matched_points stop_locations stop_delays) as [[xs ys] ds].
  destruct HL as (H1 & H2 & H3).
  split; [exact H1|]. split; [exact H2|].
  split; [rewrite H3; apply filter_length_le|].
  split; [exact HB|]. split.
  - split.
    + intros -> stop_id Hin. cbn [length] in H3.
      apply not_true_is_false. intros Hm.
      apply in_map_iff in Hin. destruct Hin as (p & Hk & Hp).
      assert (Hf : In p (filter (fun p => dict_mem stop_delays (fst p)) stop_locations)).
      { apply filter_In. split; [exact Hp|]. rewrite Hk. exact Hm. }
      destruct (filter _ stop_locations); [contradiction|discriminate].
    + intros Hnone. destruct xs as [|x xs]; [reflexivity|]. exfalso.
      cbn [length] in H3.
      destruct (filter _ stop_locations) as [|p others] eqn:Ef; [discriminate|].
      assert (Hin : In p (p :: others)) by (left; reflexivity).
      rewrite <- Ef in Hin. apply filter_In in Hin. destruct Hin as [Hp Hm].
      rewrite (Hnone (fst p) (in_map fst _ _ Hp)) in Hm. discriminate.
  - intros Hnodup. rewrite H3.
    rewrite <- (length_map fst (filter _ stop_locations)).
    rewrite <- (length_map fst stop_delays).
    apply NoDup_incl_length; [apply NoDup_map_fst_filter, Hnodup|].
    intros k Hk. apply in_map_iff in Hk. destruct Hk as (p & <- & Hp).
    apply filter_In in Hp. apply dict_mem_In. tauto.
Qed.

(** Three located stops, two of them with a delay. *)
Example matched_points_sample :
  matched_points
    [("s1", (0, 10)); ("s2", (10, 10)); ("s3", (30, 30))]%string%float
    [("s3", 4.5); ("s0", 12); ("s1", 60)]%string%float
  = ([0; 30], [10; 30], [60; 4.5])%float.
Proof.
  reflexivity.
Qed.

(** ** Trip durations *)

Lemma compute_stats_count (values : list float) :
  fst (fst (compute_stats values)) = len values.
Proof.
  destruct values as [|v rest]; reflexivity.
Qed.

Lemma collect_durations_length (py_float : string -> option float)
    (elems : list (string * attribs)) :
  len (collect_durations py_float elems) = count_if (has_duration py_float) elems.
Proof.
  unfold count_if, len. f_equal.
  induction elems as [|[tag attrib] rest IH]; [reflexivity|].
  cbn [collect_durations filter]. unfold has_duration at 1, is_tripinfo.
  cbn [fst snd]. destruct (String.eqb tag "tripinfo"); cbn [andb]; [|exact IH].
  destruct (attr_find attrib "duration") as [s|]; [|exact IH].
  destruct (py_float s); [cbn [length]; f_equal; exact IH | exact IH].
Qed.

Lemma collect_durations_In (py_float : string -> option float)
    (elems : list (string * attribs)) (duration : float) :
  In duration (collect_durations py_float elems) ->
  exists attrib duration_str,
    In ("tripinfo"%string, attrib) elems /\
    attr_find attrib "duration" = Some duration_str /\
    py_float duration_str = Some duration.
Proof.
  induction elems as [|[tag attrib] rest IH]; cbn [collect_durations];
    [intros []|].
  assert (Hrest : In duration (collect_durations py_float rest) ->
                  exists attrib0 duration_str,
                    In ("tripinfo"%string, attrib0) ((tag, attrib) :: rest) /\
                    attr_find attrib0 "duration" = Some duration_str /\
                    py_float duration_str = Some duration).
  { intros H. destruct (IH H) as (a & s & Ha & Hs & Hd).
    exists a, s. repeat split; try assumption. right. exact Ha. }
  destruct (String.eqb_spec tag "tripinfo") as [->|Hne]; [|exact Hrest].
  destruct (attr_find attrib "duration") as [s|] eqn:Es; [|exact Hrest].
  destruct (py_float s) as [d|] eqn:Ed; [|exact Hrest].
  intros [<-|Hin]; [|exact (Hrest Hin)].
  exists attrib, s. repeat split; try assumption. left. reflexivity.
Qed.

Lemma filter_sub_length {A : Type} (f g : A -> bool) (l : list A) :
  (forall a, f a = true -> g a = true) ->
  (length (filter f l) <= length (filter g l))%nat /\
  (length (filter f l) = length (filter g l) <->
   forall a, In a l -> g a = true -> f a = true).
Proof.
  intros Hsub. induction l as [|a rest [IHle IHeq]].
  - split; [apply Nat.le_refl|]. split; [intros _ a []|reflexivity].
  - cbn [filter]. destruct (f a) eqn:Ef.
    + rewrite (Hsub a Ef). cbn [length]. split; [lia|]. split.
      * intros H a' [<-|Hin] Hg; [exact Ef|].
        apply IHeq; [lia | exact Hin | exact Hg].
      * intros H. f_equal. apply IHeq. intros a' Hin. apply H. right. exact Hin.
    + destruct (g a) eqn:Eg.
      * cbn [length]. split; [lia|]. split; [lia|].
        intros H. rewrite (H a (or_introl eq_refl) Eg) in Ef. discriminate.
      * split; [exact IHle|]. split.
        -- intros H a' [<-|Hin] Hg; [congruence|]. apply IHeq; assumption.
        -- intros H. apply IHeq. intros a' Hin. apply H. right. exact Hin.
Qed.

(** X19: on a well-formed file [parse_tripinfo_durations] returns, and the
    count that [compute_stats] reports for its result is the number of
    [tripinfo] elements whose [duration] attribute [float] accepts: at most
    the number of [tripinfo] elements, and equal to it exactly when every one
    of them has such a duration; each duration returned is the number read
    from a [tripinfo] element.  A file that is not well formed ends in
    [SystemExit] whatever was read before. *)
Theorem parse_tripinfo_durations_count (py_float : string -> option float)
    (elems : list (string * attribs)) :
  parse_tripinfo_durations py_float elems false = Raised SystemExit /\
  exists durations,
    parse_tripinfo_durations py_float elems true = Returned durations /\
    fst (fst (compute_stats durations)) = count_if (has_duration py_float) elems /\
    fst (fst (compute_stats durations)) <= count_if is_tripinfo elems /\
    (fst (fst (compute_stats durations)) = count_if is_tripinfo elems <->
     forall elem, In elem elems -> is_tripinfo elem = true ->
                  has_duration py_float elem = true) /\
    (forall duration, In duration durations ->
       exists attrib duration_str,
         In ("tripinfo"%string, attrib) elems /\
         attr_find attrib "duration" = Some duration_str /\
         py_float duration_str = Some duration).
Proof.
  split; [reflexivity|].
  exists (collect_durations py_float elems).
  split; [reflexivity|].
  rewrite compute_stats_count, collect_durations_length.
  destruct (filter_sub_length (has_duration py_float) is_tripinfo elems)
    as [Hle Heq].
  { intros elem H. unfold has_duration in H.
    apply andb_true_iff in H. tauto. }
  unfold count_if, len. split; [reflexivity|]. split; [lia|]. split.
  - rewrite <- Heq. lia.
  - intros duration. apply collect_durations_In.
Qed.

(** Four elements, two of them trips with a duration that is a number. *)
Example parse_tripinfo_durations_sample :
  parse_tripinfo_durations float_of_sample
    [("tripinfo", [("id", "a"); ("duration", "12.5")]);
     ("tripinfo", [("id", "b"); ("duration", "soon")]);
     ("tripinfo", [("id", "c")]);
     ("tripinfos", [("duration", "12.5")]);
     ("tripinfo", [("id", "d"); ("duration", "0")])]%string true
  = Returned [12.5; 0]%float.
Proof.
  reflexivity.
Qed.
